(** * Virtual-cluster multi-tenancy: syncer reconcilers, HNC object
      validator and scheduler cache

    A shallow embedding of the parts of the repository that decide the
    behaviour of
    - the scheduler cache's slice arithmetic
      (experiment/pkg/scheduler/cache/namespace.go),
    - the namespace downward-sync reconciler (syncer/resources/namespace),
    - the service patroller (syncer/resources/service/checker.go),
    - the HNC object admission validator (hnc/internal/validators).

    Kubernetes objects are records, label and annotation maps are [gmap]s,
    Go's [(value, error)] results are pairs or sums, and calls to an API
    server are steps of a small state monad that records every request. *)

From Stdlib Require Import ZArith Lia Floats.SpecFloat.
From stdpp Require Import gmap strings list fin_maps.

Open Scope Z_scope.

(** ** IEEE 754 binary64, as Go's [float64]

    The operations are the reference implementation of the Standard
    Library ([SpecFloat]) at precision 53 and maximal exponent 1024. *)
Module Float64.

Definition prec : Z := 53.
Definition emax : Z := 1024.

(** [float64(n)] for an integer [n]: rounding to nearest, ties to even. *)
Definition of_int (n : Z) : spec_float := binary_normalize prec emax n 0 false.

(** [a / b] on float64. *)
Definition div (a b : spec_float) : spec_float := SFdiv prec emax a b.

(** The least integer not below a finite float. *)
Definition ceil_int (f : spec_float) : Z :=
  match f with
  | S754_finite s m e =>
      let v := cond_Zopp s (Zpos m) in
      if 0 <=? e then v * 2 ^ e else - ((- v) / 2 ^ (- e))
  | _ => 0
  end.

(** [math.Ceil]: zeros, infinities and NaN are returned as they are. *)
Definition Ceil (f : spec_float) : spec_float :=
  match f with
  | S754_finite s _ _ => binary_normalize prec emax (ceil_int f) 0 s
  | _ => f
  end.

Definition min_int64 : Z := - 2 ^ 63.
Definition max_int64 : Z := 2 ^ 63 - 1.

(** [int(f)]: truncation toward zero.  Outside the range of int64 (and on
    NaN and infinities) Go leaves the result to the implementation; amd64
    yields the least int64. *)
Definition to_int (f : spec_float) : Z :=
  match f with
  | S754_zero _ => 0
  | S754_finite s m e =>
      let v := cond_Zopp s (Zpos m) in
      let t := if 0 <=? e then v * 2 ^ e else Z.quot v (2 ^ (- e)) in
      if (min_int64 <=? t) && (t <=? max_int64) then t else min_int64
  | _ => min_int64
  end.

(** *** Notions used to state the rounding lemmas *)

(** The float built from a rounded mantissa [m1] of 53 digits, or from
    [2 ^ 53] itself. *)
Definition pack (m1 e1 : Z) : spec_float :=
  if m1 <? 2 ^ 53 then S754_finite false (Z.to_pos m1) e1
  else S754_finite false (Z.to_pos (2 ^ 52)) (e1 + 1).

(** The mantissa of [n] scaled to 53 digits. *)
Definition norm (n : Z) : Z := n * 2 ^ (53 - Zdigits2 n).

(** Where the remainder [R] of a division by [b] lies in the interval
    between two quotients. *)
Definition remainder_location (b R : Z) : location :=
  if R =? 0 then loc_Exact else loc_Inexact (2 * R ?= b).

End Float64.

(** ** Scheduler cache: namespaces and slices (namespace.go) *)
Module SchedCache.

(** [resource.Quantity] belongs to the Kubernetes API machinery.  The cache
    uses its zero value and three of its methods: [Value] (the quantity as
    an int64, a fractional quantity rounded away from zero), [Cmp] (-1, 0
    or 1) and [Add]. *)
Class QuantityOps (Quantity : Type) := {
  Zero : Quantity;
  Value : Quantity -> Z;
  Cmp : Quantity -> Quantity -> Z;
  Add : Quantity -> Quantity -> Quantity
}.

(** Whole quantities (such as [resource.MustParse("4Gi")]) as integers. *)
#[export] Instance intQuantity : QuantityOps Z := {
  Zero := 0;
  Value := fun q => q;
  Cmp := fun a b => match a ?= b with Lt => -1 | Eq => 0 | Gt => 1 end;
  Add := Z.add
}.

(** The error returns of [GetLeastFitSliceNum], one per [fmt.Errorf]. *)
Inductive SliceError :=
  | ErrMissingFromQuota (k : string)
  | ErrZeroValue (k : string)
  | ErrLargerThanQuota (k : string)
  | ErrMissingResources (more : gset string).

Section Namespace.
Context {Quantity : Type} `{QuantityOps Quantity}.

(** [v1.ResourceList]: a map from resource name to quantity. *)
Abbreviation ResourceList := (gmap string Quantity).

(** [Equals(a, b)]: the same resources with equal quantities. *)
Definition Equals (a b : ResourceList) : bool :=
  Nat.eqb (size a) (size b) &&
  forallb (fun kv => match b !! kv.1 with
                     | None => false
                     | Some value2 => Cmp kv.2 value2 =? 0
                     end) (map_to_list a).

Record Placement := NewPlacement { cluster : string; num : Z }.

Record Namespace := NewNamespace {
  owner : string;
  name : string;
  labels : gmap string string;
  quota : ResourceList;
  quotaSlice : ResourceList;
  schedule : list Placement
}.

Record Slice := NewSlice {
  sliceOwner : string;
  unit : ResourceList;
  sliceCluster : string
}.

(** [int(math.Ceil(float64(q.Value()) / float64(v.Value())))] *)
Definition ceilRatio (q v : Quantity) : Z :=
  Float64.to_int
    (Float64.Ceil
       (Float64.div (Float64.of_int (Value q)) (Float64.of_int (Value v)))).

(** One iteration of [for k, v := range quotaSlice]; the state is the set
    [more] and the running maximum [num]. *)
Definition sliceStep (quota : ResourceList) (st : gset string * Z)
    (kv : string * Quantity) : SliceError + (gset string * Z) :=
  let '(more, num) := st in
  let '(k, v) := kv in
  match quota !! k with
  | None => inl (ErrMissingFromQuota k)
  | Some q =>
      if Value v =? 0 then inl (ErrZeroValue k)
      else
        let more := more ∖ {[k]} in
        if Cmp q v =? -1 then inl (ErrLargerThanQuota k)
        else
          let n := ceilRatio q v in
          inr (more, if n >? num then n else num)
  end.

Fixpoint sliceLoop (quota : ResourceList) (st : gset string * Z)
    (l : list (string * Quantity)) : SliceError + (gset string * Z) :=
  match l with
  | [] => inr st
  | kv :: l' =>
      match sliceStep quota st kv with
      | inl e => inl e
      | inr st' => sliceLoop quota st' l'
      end
  end.

(** [GetLeastFitSliceNum] with the iteration order of [quotaSlice] made
    explicit (Go leaves the order of a map range unspecified). *)
Definition GetLeastFitSliceNumIn (order : list (string * Quantity))
    (quota : ResourceList) : Z * option SliceError :=
  match sliceLoop quota (dom quota, 0) order with
  | inl e => (0, Some e)
  | inr (more, num) =>
      if negb (Nat.eqb (size more) 0) then (0, Some (ErrMissingResources more))
      else (num, None)
  end.

Definition GetLeastFitSliceNum (quota quotaSlice : ResourceList)
    : Z * option SliceError :=
  GetLeastFitSliceNumIn (map_to_list quotaSlice) quota.

(** [t, _ := GetLeastFitSliceNum(n.quota, n.quotaSlice); return t] *)
Definition GetTotalSlices (n : Namespace) : Z :=
  fst (GetLeastFitSliceNum (quota n) (quotaSlice n)).

(** *** Specification-side notions *)

(** An entry of [quotaSlice] on which the loop body does not fail. *)
Definition sliceOk (quota : ResourceList) (kv : string * Quantity) : bool :=
  match quota !! kv.1 with
  | None => false
  | Some q => negb (Value kv.2 =? 0) && negb (Cmp q kv.2 =? -1)
  end.

Definition sliceCeil (quota : ResourceList) (kv : string * Quantity) : Z :=
  match quota !! kv.1 with
  | Some q => ceilRatio q kv.2
  | None => 0
  end.

(** The three failure modes the documentation lists. *)
Definition MissingFromQuota (quota quotaSlice : ResourceList) : Prop :=
  exists k, is_Some (quotaSlice !! k) /\ quota !! k = None.

Definition ZeroSliceDimension (quotaSlice : ResourceList) : Prop :=
  exists k v, quotaSlice !! k = Some v /\ Value v = 0.

Definition SliceLargerThanQuota (quota quotaSlice : ResourceList) : Prop :=
  exists k q v, quota !! k = Some q /\ quotaSlice !! k = Some v /\ Cmp q v = -1.

(** The fourth one, checked after the loop ([len(more) != 0]). *)
Definition MissingFromSlice (quota quotaSlice : ResourceList) : Prop :=
  exists k, is_Some (quota !! k) /\ quotaSlice !! k = None.

(** The exact integer ceiling of [a / b]. *)
Definition ceilDiv (a b : Z) : Z := - ((- a) / b).



End Namespace.

(** *** The cluster of the scheduler cache

    [cluster.go] is not among the sources modelled here; its test
    ([TestAddNamespace]) is.  The definitions below follow section 4.6 of
    the specification. *)

(** Modelled from the spec: the violations that make [AddNamespace]
    fail. *)
Inductive ClusterError :=
  | ErrNamespaceExists (ns : string)
  | ErrWrongCluster (cluster : string)
  | ErrUnknownResource (k : string)
  | ErrExceedsCapacity (k : string).

Section Cluster.
Context {Quantity : Type} `{QuantityOps Quantity}.

(** Modelled from the spec: the pod of the scheduler cache,
    [{owner, namespace, name, cluster, request}]. *)
Record Pod := NewPod {
  podOwner : string;
  podNamespace : string;
  podName : string;
  podCluster : string;
  request : gmap string Quantity
}.

(** Modelled from the spec: the [Cluster] of the scheduler cache,
    [{name, labels, capacity, alloc, allocItems: namespace -> []Slice,
    pods: key -> Pod}]. *)
Record Cluster := {
  clusterName : string;
  clusterLabels : gmap string string;
  capacity : gmap string Quantity;
  alloc : gmap string Quantity;
  allocItems : gmap string (list (@Slice Quantity));
  pods : gmap string Pod
}.

(** Modelled from the spec: [NewCluster]; the test expects the allocation
    of a new cluster to hold a zero for every resource of the capacity. *)
Definition NewCluster (name : string) (labels : gmap string string)
    (capacity : gmap string Quantity) : Cluster :=
  {| clusterName := name; clusterLabels := labels; capacity := capacity;
     alloc := (fun _ => Zero) <$> capacity; allocItems := ∅; pods := ∅ |}.

(** Modelled from the spec: one resource of one slice is added to the
    running allocation; its key must exist in the capacity and the sum
    must not exceed the capacity. *)
Definition addResource (capacity : gmap string Quantity)
    (acc : ClusterError + gmap string Quantity) (kv : string * Quantity)
    : ClusterError + gmap string Quantity :=
  match acc with
  | inl e => inl e
  | inr alloc =>
      match capacity !! kv.1 with
      | None => inl (ErrUnknownResource kv.1)
      | Some cap =>
          let sum := Add (default Zero (alloc !! kv.1)) kv.2 in
          if Cmp sum cap =? 1 then inl (ErrExceedsCapacity kv.1)
          else inr (<[kv.1 := sum]> alloc)
      end
  end.

(** Modelled from the spec: a slice must carry the name of the cluster,
    and each of its resources is added in turn. *)
Definition addSlice (name : string) (capacity : gmap string Quantity)
    (acc : ClusterError + gmap string Quantity) (s : @Slice Quantity)
    : ClusterError + gmap string Quantity :=
  match acc with
  | inl e => inl e
  | inr alloc =>
      if decide (sliceCluster s = name) then
        foldl (addResource capacity) (inr alloc) (map_to_list (unit s))
      else inl (ErrWrongCluster (sliceCluster s))
  end.

(** Modelled from the spec: [Cluster.AddNamespace(ns, slices)].  All
    slices must carry the name of the cluster, the allocation with the
    slices added must stay within the capacity, and every resource of
    every slice must exist in the capacity; a namespace that is already
    present is refused.  On a violation the error is returned and the
    cluster is left as it was; on success [allocItems[ns]] holds the
    slices and [alloc] is raised. *)
Definition AddNamespace (c : Cluster) (ns : string)
    (slices : list (@Slice Quantity))
    : option ClusterError * Cluster :=
  match allocItems c !! ns with
  | Some _ => (Some (ErrNamespaceExists ns), c)
  | None =>
      match foldl (addSlice (clusterName c) (capacity c)) (inr (alloc c)) slices with
      | inl e => (Some e, c)
      | inr alloc' =>
          (None,
           {| clusterName := clusterName c; clusterLabels := clusterLabels c;
              capacity := capacity c; alloc := alloc';
              allocItems := <[ns := slices]> (allocItems c); pods := pods c |})
      end
  end.

End Cluster.

(** *** Keys, placements and comparison of namespaces (namespace.go) *)

Section Placements.
Context {Quantity : Type} `{QuantityOps Quantity}.

(** [fmt.Sprintf("%s/%s", n.owner, n.name)] *)
Definition GetKey (n : @Namespace Quantity) : string :=
  (owner n ++ "/" ++ name n)%string.

(** [GetPlacementMap]: [m[each.GetCluster()] = each.GetNum()] for each
    placement of the schedule, in order. *)
Definition GetPlacementMap (n : @Namespace Quantity) : gmap string Z :=
  foldl (fun m each => <[cluster each := num each]> m) ∅ (schedule n).

(** [SetNewPlacements] with the order of [range p] made explicit: the
    schedule is emptied, then one placement is appended per entry. *)
Definition SetNewPlacementsIn (order : list (string * Z))
    (n : @Namespace Quantity) : @Namespace Quantity :=
  NewNamespace (owner n) (name n) (labels n) (quota n) (quotaSlice n)
    (foldl (fun sched kv => sched ++ [NewPlacement kv.1 kv.2]) [] order).

Definition SetNewPlacements (p : gmap string Z) (n : @Namespace Quantity)
    : @Namespace Quantity :=
  SetNewPlacementsIn (map_to_list p) n.

Definition GetQuotaSlice (n : @Namespace Quantity) : gmap string Quantity :=
  quotaSlice n.

(** Two namespaces are comparable only when they have the same quota
    slice. *)
Definition Comparable (n other : @Namespace Quantity) : bool :=
  Equals (quotaSlice n) (GetQuotaSlice other).

(** The string has a slash in it. *)
Fixpoint hasSlash (s : string) : bool :=
  match s with
  | EmptyString => false
  | String a rest => Ascii.eqb a (Ascii.ascii_of_nat 47) || hasSlash rest
  end.

(** [n] slices cover the quota in every resource. *)
Definition Covers (quota quotaSlice : gmap string Quantity) (n : Z) : Prop :=
  forall k q v, quota !! k = Some q -> quotaSlice !! k = Some v ->
                Value q <= n * Value v.

End Placements.

(** *** Concrete resource lists, with whole quantities *)

Definition quotaCpuMem : gmap string Z := {[ "cpu" := 1; "memory" := 1 ]}.
Definition sliceCpuOnly : gmap string Z := {[ "cpu" := 1 ]}.
Definition nsExtraQuota : Namespace :=
  NewNamespace "tenant" "ns" ∅ quotaCpuMem sliceCpuOnly [].

(** A memory quota of [2 ^ 53 + 1] bytes in slices of [2 ^ 53] bytes, and
    a quota of one cpu with a slice of minus one. *)
Definition nsHuge : Namespace :=
  NewNamespace "tenant" "huge" ∅ {[ "memory" := 2 ^ 53 + 1 ]} {[ "memory" := 2 ^ 53 ]} [].
Definition nsNegative : Namespace :=
  NewNamespace "tenant" "negative" ∅ {[ "cpu" := 1 ]} {[ "cpu" := -1 ]} [].

(** A quota of 2000 cpu and 4Gi of memory in slices of 500 cpu and 1Gi. *)
Definition nsDefault : Namespace :=
  NewNamespace "tenant" "default" ∅
    {[ "cpu" := 2000; "memory" := 4 * 2 ^ 30 ]}
    {[ "cpu" := 500; "memory" := 2 ^ 30 ]} [].

(** *** The cases of [TestAddNamespace], with whole quantities *)

Definition mega : Z := 10 ^ 6.
Definition gibi : Z := 2 ^ 30.

Definition resources (cpu memory : Z) : gmap string Z :=
  {[ "cpu" := cpu; "memory" := memory ]}.

Definition defaultCapacity := resources (2000 * mega) (4 * gibi).
Definition defaultQuotaSlice := resources (500 * mega) (1 * gibi).
Definition overMemQuotaSlice := resources (400 * mega) (5 * gibi).
Definition unknownSlice : gmap string Z := <["unknown" := 1 * gibi]> defaultQuotaSlice.

Definition testCluster : Cluster := NewCluster "testcluster" ∅ defaultCapacity.
Definition slice (unit : gmap string Z) (cluster : string) : Slice :=
  NewSlice "testnamespace" unit cluster.

Definition addTo (c : Cluster) (slices : list Slice) :=
  AddNamespace c "testnamespace" slices.

Definition succeeds (r : option ClusterError * @Cluster Z) : bool :=
  match fst r with None => true | Some _ => false end.

End SchedCache.

(** ** The syncer's view of an API server *)
Module Syncer.

(** The reasons of a [*errors.StatusError] the reconcilers tell apart. *)
Inductive StatusReason :=
  | StatusReasonNotFound
  | StatusReasonAlreadyExists
  | StatusReasonConflict
  | StatusReasonOther (msg : string).

(** A Go [error] that is not nil; [nil] is [None : option error]. *)
Inductive error :=
  | StatusError (reason : StatusReason)
  | Errorf (msg : string).

Definition IsNotFound (err : option error) : bool :=
  match err with
  | Some (StatusError StatusReasonNotFound) => true
  | _ => false
  end.

Definition IsAlreadyExists (err : option error) : bool :=
  match err with
  | Some (StatusError StatusReasonAlreadyExists) => true
  | _ => false
  end.

(** [err.Error()]; of a status error the model keeps the reason. *)
Definition ErrorText (e : error) : string :=
  match e with
  | Errorf msg => msg
  | StatusError StatusReasonNotFound => "NotFound"
  | StatusError StatusReasonAlreadyExists => "AlreadyExists"
  | StatusError StatusReasonConflict => "Conflict"
  | StatusError (StatusReasonOther msg) => msg
  end.

(** [strings.Contains(s, sub)] as a proposition. *)
Definition Contains (s sub : string) : Prop :=
  exists pre post, s = (pre ++ sub ++ post)%string.

(** A namespace or a service: the metadata the reconcilers read, and the
    rest of the object (spec and status), which only the conversion
    package looks into. *)
Record Object := {
  Name : string;
  Namespace : string;
  UID : string;
  Labels : gmap string string;
  Annotations : gmap string string;
  Rest : string
}.

(** [obj.Annotations[key]]: a missing key reads as the empty string. *)
Definition annotation (obj : Object) (key : string) : string :=
  default ""%string (Annotations obj !! key).

Inductive DeletionPropagation := Orphan | Background | Foreground.

Record Preconditions := { PreconditionUID : option string }.

Record DeleteOptions := {
  PropagationPolicy : option DeletionPropagation;
  DeletePreconditions : option Preconditions
}.

(** [metav1.NewUIDPreconditions(uid)] *)
Definition NewUIDPreconditions (uid : string) : option Preconditions :=
  Some {| PreconditionUID := Some uid |}.

(** [metav1.NewPreconditionDeleteOptions(uid)] *)
Definition NewPreconditionDeleteOptions (uid : string) : DeleteOptions :=
  {| PropagationPolicy := None; DeletePreconditions := NewUIDPreconditions uid |}.

(** A request to the super cluster's API server. *)
Inductive ApiRequest :=
  | CreateNamespace (obj : Object)
  | UpdateNamespace (obj : Object)
  | DeleteNamespace (name : string) (opts : DeleteOptions)
  | DeleteService (namespace name : string) (opts : DeleteOptions).

(** The super cluster as the syncer sees it: the state of its API server
    and the requests sent to it so far. *)
Record World (S : Type) := {
  server : S;
  requests : list ApiRequest
}.
Arguments server {S} _.
Arguments requests {S} _.

(** Computations that talk to the super cluster. *)
Definition M (S A : Type) : Type := World S -> A * World S.

Definition ret {S A} (a : A) : M S A := fun w => (a, w).

Definition bind {S A B} (m : M S A) (k : A -> M S B) : M S B :=
  fun w => let '(a, w') := m w in k a w'.

(** One request: the server answers and moves on, the request is logged. *)
Definition call {S} (serve : ApiRequest -> S -> option error * S)
    (r : ApiRequest) : M S (option error) :=
  fun w =>
    let '(err, s') := serve r (server w) in
    (err, {| server := s'; requests := requests w ++ [r] |}).

Notation "x <- m ;; k" := (bind m (fun x => k))
  (at level 100, m at next level, right associativity).

(** What a lister or a tenant cache returns: the object or an error. *)
Definition lookupResult (A : Type) : Type := error + A.

(** The common prologue of a reconcile: [NotFound] means the object does
    not exist, any other error ends the reconcile. *)
Definition existing {A} (r : lookupResult A) : error + option A :=
  match r with
  | inr a => inr (Some a)
  | inl e => if IsNotFound (Some e) then inr None else inl e
  end.

(** [reconciler.Request] and [reconciler.Result] *)
Record Request := {
  ClusterName : string;
  ReqNamespace : string;
  ReqName : string;
  ReqUID : string
}.

Record Result := { Requeue : bool; RequeueAfter : Z }.

Definition Done : Result := {| Requeue := false; RequeueAfter := 0 |}.
Definition RequeueNow : Result := {| Requeue := true; RequeueAfter := 0 |}.

End Syncer.

(** ** Namespace downward sync (syncer/resources/namespace, dws.go) *)
Module NamespaceDWS.
Import Syncer.

(** The collaborators of the controller.  The conversion package, the
    multi-cluster controller, the feature gate and the constants are not
    among the sources modelled here; the controller takes them as fields. *)
Record controller (S : Type) := {
  (** [constants.LabelUID] and [constants.DefaultDeletionPolicy] *)
  LabelUID : string;
  DefaultDeletionPolicy : DeletionPropagation;
  (** [conversion.ToSuperMasterNamespace(cluster, ns)] *)
  ToSuperMasterNamespace : string -> string -> string;
  (** [conversion.BuildSuperMasterNamespace(cluster, vcName, vcNamespace, vcUID, vNs)] *)
  BuildSuperMasterNamespace :
    string -> string -> string -> string -> Object -> error + Object;
  (** [c.nsLister.Get(name)]: the informer cache of the super cluster *)
  nsLister : string -> lookupResult Object;
  (** [c.MultiClusterController.Get(cluster, namespace, name)] *)
  mcGet : string -> string -> string -> lookupResult Object;
  (** [c.MultiClusterController.GetOwnerInfo(cluster)] *)
  GetOwnerInfo : string -> error + (string * string * string);
  (** [featuregate.DefaultFeatureGate.Enabled(featuregate.SuperClusterPooling)] *)
  SuperClusterPooling : bool;
  (** [util.GetVirtualClusterObject(c.MultiClusterController, cluster)] *)
  GetVirtualClusterObject : string -> error + Object;
  (** [conversion.Equality(c.Config, vc).CheckNamespaceEquality(p, v)]:
      the namespace to write, or nil when nothing differs *)
  CheckNamespaceEquality :
    Object -> Object -> Object -> option Object;
  (** [c.namespaceClient.Namespaces()]: the super cluster's API server *)
  namespaceClient : ApiRequest -> S -> option error * S
}.
Arguments LabelUID {S} _.
Arguments DefaultDeletionPolicy {S} _.
Arguments ToSuperMasterNamespace {S} _ _ _.
Arguments BuildSuperMasterNamespace {S} _ _ _ _ _ _.
Arguments nsLister {S} _ _.
Arguments mcGet {S} _ _ _ _.
Arguments GetOwnerInfo {S} _ _.
Arguments SuperClusterPooling {S} _.
Arguments GetVirtualClusterObject {S} _ _.
Arguments CheckNamespaceEquality {S} _ _ _ _.
Arguments namespaceClient {S} _ _ _.

Section Reconcile.
Context {S : Type} (c : controller S).

Definition reconcileNamespaceCreate
    (clusterName targetNamespace requestUID : string)
    (vNamespace : Object) : M S (option error) :=
  match GetOwnerInfo c clusterName with
  | inl err => ret (Some err)
  | inr (vcName, vcNamespace, vcUID) =>
      match BuildSuperMasterNamespace c clusterName vcName vcNamespace vcUID
              vNamespace with
      | inl err => ret (Some err)
      | inr newObj =>
          err <- call (namespaceClient c) (CreateNamespace newObj) ;;
          if IsAlreadyExists err then ret None else ret err
      end
  end.

Definition reconcileNamespaceUpdate
    (clusterName targetNamespace requestUID : string)
    (pNamespace vNamespace : Object) : M S (option error) :=
  if decide (annotation pNamespace (LabelUID c) <> requestUID) then
    ret (Some (Errorf ("pNamespace " ++ targetNamespace ++
                       " exists but its delegated UID is different")))
  else if SuperClusterPooling c then
    match GetVirtualClusterObject c clusterName with
    | inl err => ret (Some err)
    | inr vc =>
        match CheckNamespaceEquality c vc pNamespace vNamespace with
        | Some updatedNamespace =>
            err <- call (namespaceClient c) (UpdateNamespace updatedNamespace) ;;
            ret err
        | None => ret None
        end
    end
  else ret None.

Definition reconcileNamespaceRemove
    (clusterName targetNamespace requestUID : string)
    (pNamespace : Object) : M S (option error) :=
  if decide (annotation pNamespace (LabelUID c) <> requestUID) then
    ret (Some (Errorf ("to be deleted pNamespace " ++ targetNamespace ++
                       " delegated UID is different from deleted object")))
  else
    let opts := {| PropagationPolicy := Some (DefaultDeletionPolicy c);
                   DeletePreconditions := NewUIDPreconditions (UID pNamespace) |} in
    err <- call (namespaceClient c) (DeleteNamespace targetNamespace opts) ;;
    if IsNotFound err then ret None else ret err.

(** The tail of each branch of [Reconcile]: requeue on error. *)
Definition finish (m : M S (option error)) : M S (Result * option error) :=
  err <- m ;;
  match err with
  | Some e => ret (RequeueNow, Some e)
  | None => ret (Done, None)
  end.

Definition Reconcile (request : Request) : M S (Result * option error) :=
  let targetNamespace :=
    ToSuperMasterNamespace c (ClusterName request) (ReqName request) in
  match existing (nsLister c targetNamespace) with
  | inl err => ret (RequeueNow, Some err)
  | inr p =>
      match existing (mcGet c (ClusterName request) (ReqNamespace request)
                        (ReqName request)) with
      | inl err => ret (RequeueNow, Some err)
      | inr v =>
          match v, p with
          | Some vNamespace, None =>
              finish (reconcileNamespaceCreate (ClusterName request)
                        targetNamespace (ReqUID request) vNamespace)
          | None, Some pNamespace =>
              finish (reconcileNamespaceRemove (ClusterName request)
                        targetNamespace (ReqUID request) pNamespace)
          | Some vNamespace, Some pNamespace =>
              finish (reconcileNamespaceUpdate (ClusterName request)
                        targetNamespace (ReqUID request) pNamespace vNamespace)
          | None, None => ret (Done, None)
          end
      end
  end.

(** *** Specification-side notions *)

(** The two situations of C6: the create is sent and answered with
    AlreadyExists; the delete is sent and answered with NotFound. *)
Definition CreateAnswersAlreadyExists (request : Request) (w : World S) : Prop :=
  exists vNamespace owner newObj s',
    nsLister c (ToSuperMasterNamespace c (ClusterName request) (ReqName request))
      = inl (StatusError StatusReasonNotFound) /\
    mcGet c (ClusterName request) (ReqNamespace request) (ReqName request)
      = inr vNamespace /\
    GetOwnerInfo c (ClusterName request) = inr owner /\
    BuildSuperMasterNamespace c (ClusterName request) owner.1.1 owner.1.2
      owner.2 vNamespace = inr newObj /\
    namespaceClient c (CreateNamespace newObj) (server w)
      = (Some (StatusError StatusReasonAlreadyExists), s').

Definition DeleteAnswersNotFound (request : Request) (w : World S) : Prop :=
  exists pNamespace s',
    nsLister c (ToSuperMasterNamespace c (ClusterName request) (ReqName request))
      = inr pNamespace /\
    mcGet c (ClusterName request) (ReqNamespace request) (ReqName request)
      = inl (StatusError StatusReasonNotFound) /\
    annotation pNamespace (LabelUID c) = ReqUID request /\
    namespaceClient c
      (DeleteNamespace
         (ToSuperMasterNamespace c (ClusterName request) (ReqName request))
         {| PropagationPolicy := Some (DefaultDeletionPolicy c);
            DeletePreconditions := NewUIDPreconditions (UID pNamespace) |})
      (server w)
      = (Some (StatusError StatusReasonNotFound), s').

End Reconcile.

(** *** A fake super cluster: a store of namespaces by name

    Create fails with [AlreadyExists] on a name that is taken; delete
    fails with [NotFound] on a missing name and with [Conflict] when the
    UID precondition does not match; update fails with [NotFound]. *)
Definition fakeServe (r : ApiRequest) (s : gmap string Object)
    : option error * gmap string Object :=
  match r with
  | CreateNamespace obj =>
      match s !! Name obj with
      | Some _ => (Some (StatusError StatusReasonAlreadyExists), s)
      | None => (None, <[Name obj := obj]> s)
      end
  | UpdateNamespace obj =>
      match s !! Name obj with
      | Some _ => (None, <[Name obj := obj]> s)
      | None => (Some (StatusError StatusReasonNotFound), s)
      end
  | DeleteNamespace name opts =>
      match s !! name with
      | None => (Some (StatusError StatusReasonNotFound), s)
      | Some obj =>
          match DeletePreconditions opts with
          | Some {| PreconditionUID := Some uid |} =>
              if decide (uid = UID obj) then (None, delete name s)
              else (Some (StatusError StatusReasonConflict), s)
          | _ => (None, delete name s)
          end
      end
  | DeleteService _ _ _ => (Some (StatusError StatusReasonNotFound), s)
  end.

(** A controller over the fake super cluster, reading the super side
    from [superCache] and the tenant side from [tenantCache] (keyed by
    namespace name). *)
Definition fakeController (superCache tenantCache : gmap string Object)
    (pooling : bool) : controller (gmap string Object) := {|
  LabelUID := "tenancy.x-k8s.io/uid";
  DefaultDeletionPolicy := Background;
  ToSuperMasterNamespace := fun cluster ns => (cluster ++ "-" ++ ns)%string;
  BuildSuperMasterNamespace := fun cluster _ _ _ v =>
    inr {| Name := (cluster ++ "-" ++ Name v)%string; Namespace := "";
           UID := ""; Labels := Labels v;
           Annotations := <["tenancy.x-k8s.io/uid" := UID v]> (Annotations v);
           Rest := Rest v |};
  nsLister := fun name =>
    match superCache !! name with
    | Some p => inr p
    | None => inl (StatusError StatusReasonNotFound)
    end;
  mcGet := fun _ _ name =>
    match tenantCache !! name with
    | Some v => inr v
    | None => inl (StatusError StatusReasonNotFound)
    end;
  GetOwnerInfo := fun cluster => inr (cluster, "default", "vc-uid")%string;
  SuperClusterPooling := pooling;
  GetVirtualClusterObject := fun cluster =>
    inr {| Name := cluster; Namespace := "default"; UID := "vc-uid";
           Labels := ∅; Annotations := ∅; Rest := "" |};
  CheckNamespaceEquality := fun _ _ _ => None;
  namespaceClient := fakeServe
|}.

(** C1 in the words of the documentation: the delete of an orphaned super
    namespace carries the stored delegation UID as its precondition. *)
Definition DeleteCarriesDelegationUID {S} (c : controller S)
    (request : Request) (w : World S) : Prop :=
  let targetNamespace :=
    ToSuperMasterNamespace c (ClusterName request) (ReqName request) in
  forall pNamespace,
    nsLister c targetNamespace = inr pNamespace ->
    mcGet c (ClusterName request) (ReqNamespace request) (ReqName request)
      = inl (StatusError StatusReasonNotFound) ->
    annotation pNamespace (LabelUID c) = ReqUID request ->
    requests (snd (Reconcile c request w))
    = requests w ++
      [DeleteNamespace targetNamespace
         {| PropagationPolicy := Some (DefaultDeletionPolicy c);
            DeletePreconditions :=
              NewUIDPreconditions (annotation pNamespace (LabelUID c)) |}].

(** *** The decision table of a reconcile

    The request that a reconcile sends, read off the two caches alone:
    a create when only the tenant namespace exists (and the super
    namespace could be built), a delete when only the super namespace
    exists and carries the UID of the request, an update when both exist,
    the UIDs agree, the feature gate is on and the equality check returns
    a namespace to write. *)
Definition expectedRequests {S} (c : controller S) (request : Request)
    : list ApiRequest :=
  let targetNamespace :=
    ToSuperMasterNamespace c (ClusterName request) (ReqName request) in
  match existing (nsLister c targetNamespace),
        existing (mcGet c (ClusterName request) (ReqNamespace request)
                    (ReqName request)) with
  | inr None, inr (Some vNamespace) =>
      match GetOwnerInfo c (ClusterName request) with
      | inr (vcName, vcNamespace, vcUID) =>
          match BuildSuperMasterNamespace c (ClusterName request) vcName
                  vcNamespace vcUID vNamespace with
          | inr newObj => [CreateNamespace newObj]
          | inl _ => []
          end
      | inl _ => []
      end
  | inr (Some pNamespace), inr None =>
      if decide (annotation pNamespace (LabelUID c) = ReqUID request) then
        [DeleteNamespace targetNamespace
           {| PropagationPolicy := Some (DefaultDeletionPolicy c);
              DeletePreconditions := NewUIDPreconditions (UID pNamespace) |}]
      else []
  | inr (Some pNamespace), inr (Some vNamespace) =>
      if decide (annotation pNamespace (LabelUID c) = ReqUID request) then
        if SuperClusterPooling c then
          match GetVirtualClusterObject c (ClusterName request) with
          | inr vc =>
              match CheckNamespaceEquality c vc pNamespace vNamespace with
              | Some updatedNamespace => [UpdateNamespace updatedNamespace]
              | None => []
              end
          | inl _ => []
          end
        else []
      else []
  | _, _ => []
  end.

(** The answers of the super cluster that a reconcile takes for success:
    [AlreadyExists] to a create and [NotFound] to a delete. *)
Definition tolerated (r : ApiRequest) (err : option error) : bool :=
  match r with
  | CreateNamespace _ => IsAlreadyExists err
  | DeleteNamespace _ _ => IsNotFound err
  | _ => false
  end.

(** *** Concrete reconciles over the fake super cluster *)

Definition request1 : Request :=
  {| ClusterName := "cluster1"; ReqNamespace := ""; ReqName := "ns1";
     ReqUID := "v-uid-1" |}.

(** The tenant namespace [ns1] and two super namespaces for it: one
    delegated from it, one delegated from another tenant object. *)
Definition vNs1 : Object :=
  {| Name := "ns1"; Namespace := ""; UID := "v-uid-1"; Labels := ∅;
     Annotations := ∅; Rest := "" |}.

Definition pNs1 : Object :=
  {| Name := "cluster1-ns1"; Namespace := ""; UID := "p-uid-1"; Labels := ∅;
     Annotations := {[ "tenancy.x-k8s.io/uid" := "v-uid-1" ]}; Rest := "" |}.

Definition pForeign : Object :=
  {| Name := "cluster1-ns1"; Namespace := ""; UID := "p-uid-2"; Labels := ∅;
     Annotations := {[ "tenancy.x-k8s.io/uid" := "v-uid-0" ]}; Rest := "" |}.

Definition superOf (p : Object) : gmap string Object :=
  {[ "cluster1-ns1" := p ]}.

Definition worldOf (s : gmap string Object) : World (gmap string Object) :=
  {| server := s; requests := [] |}.

(** The tenant namespace is gone, the super namespace is still there. *)
Definition ctlOrphan := fakeController (superOf pNs1) ∅ false.
(** Both exist, the super namespace belongs to another tenant object. *)
Definition ctlForeign := fakeController (superOf pForeign) {[ "ns1" := vNs1 ]} false.
(** The tenant namespace exists and the informer cache has no super
    namespace yet. *)
Definition ctlFresh := fakeController ∅ {[ "ns1" := vNs1 ]} false.

(** Both namespaces exist and belong together. *)
Definition ctlSynced := fakeController (superOf pNs1) {[ "ns1" := vNs1 ]} false.
(** The super namespace of another tenant object, the tenant namespace
    is gone. *)
Definition ctlForeignOrphan := fakeController (superOf pForeign) ∅ false.
(** The tenant cache cannot be read. *)
Definition ctlUnsynced : controller (gmap string Object) :=
  let c := fakeController (superOf pNs1) ∅ false in
  {| LabelUID := LabelUID c;
     DefaultDeletionPolicy := DefaultDeletionPolicy c;
     ToSuperMasterNamespace := ToSuperMasterNamespace c;
     BuildSuperMasterNamespace := BuildSuperMasterNamespace c;
     nsLister := nsLister c;
     mcGet := fun _ _ _ => inl (Errorf "cluster cache is not synced");
     GetOwnerInfo := GetOwnerInfo c;
     SuperClusterPooling := SuperClusterPooling c;
     GetVirtualClusterObject := GetVirtualClusterObject c;
     CheckNamespaceEquality := CheckNamespaceEquality c;
     namespaceClient := namespaceClient c |}.

End NamespaceDWS.

(** ** Service patrol (syncer/resources/service/checker.go) *)
Module ServicePatrol.
Import Syncer.

(** The collaborators of the service controller during a patrol. *)
Record controller (S : Type) := {
  LabelUID : string;
  (** [c.MultiClusterController]: [GetClusterNames], [List], [Get] *)
  GetClusterNames : list string;
  mcList : string -> error + list Object;
  mcGet : string -> string -> string -> lookupResult Object;
  (** [c.serviceLister]: [Services(ns).Get(name)] and [List(labels.Everything())] *)
  serviceListerGet : string -> string -> lookupResult Object;
  serviceListerList : error + list Object;
  (** the conversion package *)
  ToSuperMasterNamespace : string -> string -> string;
  GetVirtualOwner : Object -> string * string;
  GetVirtualClusterObject : string -> error + Object;
  CheckServiceEquality : Object -> Object -> Object -> option Object;
  CheckUWObjectMetaEquality : Object -> Object -> Object -> option Object;
  (** [isBackPopulateService] and [equality.Semantic.DeepEqual] on status *)
  isBackPopulateService : Object -> bool;
  statusDeepEqual : Object -> Object -> bool;
  (** [c.serviceClient]: the super cluster's API server *)
  serviceClient : ApiRequest -> S -> option error * S
}.
Arguments LabelUID {S} _.
Arguments GetClusterNames {S} _.
Arguments mcList {S} _ _.
Arguments mcGet {S} _ _ _ _.
Arguments serviceListerGet {S} _ _ _.
Arguments serviceListerList {S} _.
Arguments ToSuperMasterNamespace {S} _ _ _.
Arguments GetVirtualOwner {S} _ _.
Arguments GetVirtualClusterObject {S} _ _.
Arguments CheckServiceEquality {S} _ _ _ _.
Arguments CheckUWObjectMetaEquality {S} _ _ _ _.
Arguments isBackPopulateService {S} _ _.
Arguments statusDeepEqual {S} _ _ _.
Arguments serviceClient {S} _ _ _.

(** What the tenant-side check of a pass leaves behind: the three
    mismatch counters, the tenant services handed to [RequeueObject] and
    the super services handed to [enqueueService]. *)
Record Report := {
  numSpecMissMatchedServices : nat;
  numStatusMissMatchedServices : nat;
  numUWMetaMissMatchedServices : nat;
  requeued : list (string * Object);
  enqueued : list Object
}.

Definition emptyReport : Report :=
  {| numSpecMissMatchedServices := 0; numStatusMissMatchedServices := 0;
     numUWMetaMissMatchedServices := 0; requeued := []; enqueued := [] |}.

Definition requeue (cluster : string) (v : Object) (r : Report) : Report :=
  {| numSpecMissMatchedServices := numSpecMissMatchedServices r;
     numStatusMissMatchedServices := numStatusMissMatchedServices r;
     numUWMetaMissMatchedServices := numUWMetaMissMatchedServices r;
     requeued := requeued r ++ [(cluster, v)]; enqueued := enqueued r |}.

Definition enqueue (p : Object) (r : Report) : Report :=
  {| numSpecMissMatchedServices := numSpecMissMatchedServices r;
     numStatusMissMatchedServices := numStatusMissMatchedServices r;
     numUWMetaMissMatchedServices := numUWMetaMissMatchedServices r;
     requeued := requeued r; enqueued := enqueued r ++ [p] |}.

Definition count (spec status meta : bool) (r : Report) : Report :=
  {| numSpecMissMatchedServices :=
       (numSpecMissMatchedServices r + if spec then 1 else 0)%nat;
     numStatusMissMatchedServices :=
       (numStatusMissMatchedServices r + if status then 1 else 0)%nat;
     numUWMetaMissMatchedServices :=
       (numUWMetaMissMatchedServices r + if meta then 1 else 0)%nat;
     requeued := requeued r; enqueued := enqueued r |}.

Section Patrol.
Context {S : Type} (c : controller S).

(** The body of the loop of [checkServicesOfTenantCluster]. *)
Definition checkService (clusterName : string) (vService : Object)
    (r : Report) : Report :=
  let targetNamespace :=
    ToSuperMasterNamespace c clusterName (Namespace vService) in
  match serviceListerGet c targetNamespace (Name vService) with
  | inl err =>
      if IsNotFound (Some err) then requeue clusterName vService r else r
  | inr pService =>
      if decide (annotation pService (LabelUID c) <> UID vService) then r
      else
        match GetVirtualClusterObject c clusterName with
        | inl _ => r
        | inr vc =>
            let r :=
              match CheckServiceEquality c vc pService vService with
              | Some _ => requeue clusterName vService (count true false false r)
              | None => r
              end in
            if isBackPopulateService c pService then
              let meta :=
                match CheckUWObjectMetaEquality c vc pService vService with
                | Some _ => true
                | None => false
                end in
              let status := negb (statusDeepEqual c vService pService) in
              let r := count false status meta r in
              if meta || status then enqueue pService r else r
            else r
        end
  end.

Definition checkServicesOfTenantCluster (clusterName : string) (r : Report)
    : Report :=
  match mcList c clusterName with
  | inl _ => r
  | inr items => foldl (fun r v => checkService clusterName v r) r items
  end.

(** The decision taken for one super service in the second loop of
    [PatrollerDo]; [None] stands for [continue]. *)
Definition shouldDelete (pService : Object) : option bool :=
  let '(clusterName, vNamespace) := GetVirtualOwner c pService in
  if (Nat.eqb (String.length clusterName) 0
      || Nat.eqb (String.length vNamespace) 0)%bool then None
  else
    match mcGet c clusterName vNamespace (Name pService) with
    | inl err => Some (IsNotFound (Some err))
    | inr vService =>
        Some (bool_decide (annotation pService (LabelUID c) <> UID vService))
    end.

(** The number of orphan services deleted, for the remedy metric. *)
Fixpoint deleteOrphans (pServices : list Object) (deleted : nat) : M S nat :=
  match pServices with
  | [] => ret deleted
  | pService :: rest =>
      match shouldDelete pService with
      | Some true =>
          err <- call (serviceClient c)
                   (DeleteService (Namespace pService) (Name pService)
                      (NewPreconditionDeleteOptions (UID pService))) ;;
          deleteOrphans rest
            (match err with Some _ => deleted | None => Datatypes.S deleted end)
      | _ => deleteOrphans rest deleted
      end
  end.

(** [PatrollerDo]: the report of the tenant-side check and the number of
    deleted orphans; [None] when the pass gives up. *)
Definition PatrollerDo : M S (option (Report * nat)) :=
  match GetClusterNames c with
  | [] => ret None
  | clusterNames =>
      let report :=
        foldl (fun r cl => checkServicesOfTenantCluster cl r) emptyReport
          clusterNames in
      match serviceListerList c with
      | inl _ => ret None
      | inr pServices =>
          deleted <- deleteOrphans pServices 0 ;;
          ret (Some (report, deleted))
      end
  end.

(** *** Specification-side notions *)

(** The labels of a super service identify a tenant owner. *)
Definition Owned (pService : Object) : Prop :=
  (GetVirtualOwner c pService).1 <> ""%string /\
  (GetVirtualOwner c pService).2 <> ""%string.

(** The tenant counterpart is not found in the tenant cache, or it is
    found and the delegation UID of the super service is not its UID. *)
Definition Orphaned (pService : Object) : Prop :=
  let '(clusterName, vNamespace) := GetVirtualOwner c pService in
  mcGet c clusterName vNamespace (Name pService)
    = inl (StatusError StatusReasonNotFound) \/
  exists vService,
    mcGet c clusterName vNamespace (Name pService) = inr vService /\
    annotation pService (LabelUID c) <> UID vService.

(** The pair is intact: the counterpart is found and the UIDs agree. *)
Definition Intact (pService : Object) : Prop :=
  let '(clusterName, vNamespace) := GetVirtualOwner c pService in
  exists vService,
    mcGet c clusterName vNamespace (Name pService) = inr vService /\
    annotation pService (LabelUID c) = UID vService.

Definition orphanDelete (pService : Object) : ApiRequest :=
  DeleteService (Namespace pService) (Name pService)
    {| PropagationPolicy := None;
       DeletePreconditions := Some {| PreconditionUID := Some (UID pService) |} |}.

(** C8 in the words of the documentation: in every pass, every owned
    super service that is orphaned is deleted with a UID precondition. *)
Definition PatrolDeletesOrphans (w : World S) : Prop :=
  forall pServices pService,
    serviceListerList c = inr pServices ->
    pService ∈ pServices ->
    Owned pService -> Orphaned pService ->
    orphanDelete pService ∈ requests (snd (PatrollerDo w)).

(** The services the tenant cache of a cluster lists; none when the
    list fails. *)
Definition listed (clusterName : string) : list Object :=
  match mcList c clusterName with
  | inl _ => []
  | inr items => items
  end.

(** The two reasons [checkServicesOfTenantCluster] has to hand a tenant
    service to [RequeueObject]: the informer cache of the super cluster
    answers NotFound for its super service, or the super service is there
    with its UID and the equality check of the specs returns a service. *)
Definition RequeueJustified (clusterName : string) (vService : Object) : Prop :=
  let targetNamespace :=
    ToSuperMasterNamespace c clusterName (Namespace vService) in
  (exists e, serviceListerGet c targetNamespace (Name vService) = inl e /\
             IsNotFound (Some e) = true) \/
  (exists pService vc,
     serviceListerGet c targetNamespace (Name vService) = inr pService /\
     annotation pService (LabelUID c) = UID vService /\
     GetVirtualClusterObject c clusterName = inr vc /\
     CheckServiceEquality c vc pService vService <> None).

(** How a report can grow over [n] checked services: every counter and
    both queues grow, by at most [n]; every spec mismatch is requeued;
    every enqueue stands for one or two of the status and meta
    mismatches. *)
Definition Grows (n : nat) (r r' : Report) : Prop :=
  (numSpecMissMatchedServices r <= numSpecMissMatchedServices r'
     <= numSpecMissMatchedServices r + n)%nat /\
  (numStatusMissMatchedServices r <= numStatusMissMatchedServices r'
     <= numStatusMissMatchedServices r + n)%nat /\
  (numUWMetaMissMatchedServices r <= numUWMetaMissMatchedServices r'
     <= numUWMetaMissMatchedServices r + n)%nat /\
  (length (requeued r) <= length (requeued r') <= length (requeued r) + n)%nat /\
  (length (enqueued r) <= length (enqueued r') <= length (enqueued r) + n)%nat /\
  (numSpecMissMatchedServices r' + length (requeued r)
     <= numSpecMissMatchedServices r + length (requeued r'))%nat /\
  (length (enqueued r') + numStatusMissMatchedServices r
       + numUWMetaMissMatchedServices r
     <= length (enqueued r) + numStatusMissMatchedServices r'
       + numUWMetaMissMatchedServices r')%nat /\
  (numStatusMissMatchedServices r' + numUWMetaMissMatchedServices r'
       + 2 * length (enqueued r)
     <= numStatusMissMatchedServices r + numUWMetaMissMatchedServices r
       + 2 * length (enqueued r'))%nat.

(** The deletes of the second loop of [PatrollerDo] over [pServices]. *)
Definition orphanDeletes (pServices : list Object) : list ApiRequest :=
  orphanDelete <$> filter (fun p => shouldDelete p = Some true) pServices.

End Patrol.

(** *** Concrete passes *)

(** A super cluster that accepts every request. *)
Definition okServe (r : ApiRequest) (s : unit) : option error * unit := (None, s).

Definition svc (ns name uid delegated : string) : Object :=
  {| Name := name; Namespace := ns; UID := uid;
     Labels := {[ "tenancy.x-k8s.io/cluster" := "cluster1" ]};
     Annotations := {[ "tenancy.x-k8s.io/uid" := delegated ]}; Rest := "" |}.

(** Two super services of tenant [cluster1]: [web] has no tenant
    counterpart, [db] has one with the delegated UID. *)
Definition pWeb : Object := svc "cluster1-default" "web" "p-uid-web" "v-uid-web".
Definition pDb : Object := svc "cluster1-default" "db" "p-uid-db" "v-uid-db".
Definition vDb : Object := svc "default" "db" "v-uid-db" "".

Definition fakePatrol (clusterNames : list string) : controller unit := {|
  LabelUID := "tenancy.x-k8s.io/uid";
  GetClusterNames := clusterNames;
  mcList := fun _ => inr [vDb];
  mcGet := fun _ _ name =>
    if decide (name = "db"%string) then inr vDb
    else inl (StatusError StatusReasonNotFound);
  serviceListerGet := fun _ name =>
    if decide (name = "db"%string) then inr pDb
    else if decide (name = "web"%string) then inr pWeb
    else inl (StatusError StatusReasonNotFound);
  serviceListerList := inr [pWeb; pDb];
  ToSuperMasterNamespace := fun cluster ns => (cluster ++ "-" ++ ns)%string;
  GetVirtualOwner := fun p =>
    (default ""%string (Labels p !! "tenancy.x-k8s.io/cluster"), "default"%string);
  GetVirtualClusterObject := fun cluster => inr (svc "default" cluster "vc-uid" "");
  CheckServiceEquality := fun _ _ _ => None;
  CheckUWObjectMetaEquality := fun _ _ _ => None;
  isBackPopulateService := fun _ => false;
  statusDeepEqual := fun _ _ => true;
  serviceClient := okServe
|}.

Definition idle : World unit := {| server := tt; requests := [] |}.

(** A tenant cluster that is ahead of the super cluster: the service
    [cache] has no super service yet, and the spec of [db] has changed. *)
Definition vCache : Object := svc "default" "cache" "v-uid-cache" "".

Definition lagPatrol : controller unit := {|
  LabelUID := "tenancy.x-k8s.io/uid";
  GetClusterNames := ["cluster1"%string];
  mcList := fun _ => inr [vDb; vCache];
  mcGet := mcGet (fakePatrol []);
  serviceListerGet := fun _ name =>
    if decide (name = "db"%string) then inr pDb
    else inl (StatusError StatusReasonNotFound);
  serviceListerList := inr [pDb];
  ToSuperMasterNamespace := ToSuperMasterNamespace (fakePatrol []);
  GetVirtualOwner := GetVirtualOwner (fakePatrol []);
  GetVirtualClusterObject := GetVirtualClusterObject (fakePatrol []);
  CheckServiceEquality := fun _ p _ => Some p;
  CheckUWObjectMetaEquality := fun _ _ _ => None;
  isBackPopulateService := fun _ => true;
  statusDeepEqual := fun _ _ => false;
  serviceClient := okServe
|}.

End ServicePatrol.

(** ** HNC object admission (hnc/internal/validators, object.go) *)
Module ObjectValidator.

Abbreviation error := Syncer.error.

Inductive Operation := Create | Update | Delete | Connect.

Definition OperationName (op : Operation) : string :=
  match op with
  | Create => "CREATE"
  | Update => "UPDATE"
  | Delete => "DELETE"
  | Connect => "CONNECT"
  end.

(** The [metav1.StatusReason]s the validator denies with. *)
Inductive DenyReason :=
  | StatusReasonBadRequest
  | StatusReasonForbidden
  | StatusReasonInternalError
  | StatusReasonConflict.

(** [admission.Response], reduced to what [Handle] reads and logs. *)
Record Response := {
  Allowed : bool;
  Reason : option DenyReason;
  Message : string
}.

(** Modelled from the spec: the helpers [allow] and [deny] of the
    validators package are not among the sources modelled here; a response is
    the structured [{reason, code, message}] of the specification, allowed
    or not. *)
Definition allow (msg : string) : Response :=
  {| Allowed := true; Reason := None; Message := msg |}.

Definition deny (reason : DenyReason) (msg : string) : Response :=
  {| Allowed := false; Reason := Some reason; Message := msg |}.

(** [unstructured.Unstructured]: the metadata the validator reads and the
    rest of the content. *)
Record Unstructured := {
  objName : string;
  objNamespace : string;
  objLabels : gmap string string;
  objAnnotations : gmap string string;
  objContent : string
}.

(** [&unstructured.Unstructured{}] *)
Definition emptyObject : Unstructured :=
  {| objName := ""; objNamespace := ""; objLabels := ∅; objAnnotations := ∅;
     objContent := "" |}.

(** Modelled from the spec: [metadata.GetLabel] is not among the modelled
    sources; it returns the value of the label and whether the object
    carries it. *)
Definition GetLabel (inst : Unstructured) (label : string) : string * bool :=
  match objLabels inst !! label with
  | Some value => (value, true)
  | None => (""%string, false)
  end.

Record GroupVersionKind := { Group : string; Version : string; Kind : string }.
Record UserInfo := { Username : string; Groups : list string }.

(** [admission.Request]; a raw object is [None] when its [Raw] is nil. *)
Record AdmissionRequest := {
  ReqNamespace : string;
  ReqKind : GroupVersionKind;
  ReqOperation : Operation;
  ReqUserInfo : UserInfo;
  ReqObject : option string;
  ReqOldObject : option string
}.

Inductive SynchronizationMode := Propagate | Ignore | OtherMode (mode : string).

(** [corev1.Namespace], reduced to its deletion timestamp (seconds). *)
Record NamespaceObject := { DeletionTimestamp : option Z }.

(** [t.IsZero()] on a [*metav1.Time] *)
Definition IsZero (t : option Z) : bool :=
  match t with
  | None => true
  | Some seconds => seconds =? 0
  end.

(** A double quote, for the messages that quote a name. *)
Definition dq : string := String (Ascii.ascii_of_nat 34) EmptyString.

(** The validator with its collaborators: the configuration, the forest,
    the decoder, the client, the canonical form of [object.Canonical] and
    the selector checks of the selectors package. *)
Record Object (Canon : Type) := {
  LabelInheritedFrom : string;
  AnnotationTreeSelector : string;
  (** [config.EX] *)
  EX : string -> bool;
  (** [o.Forest.GetTypeSyncerFromGroupKind(gk)]: nil, or a syncer and its mode *)
  GetTypeSyncerMode : string -> string -> option SynchronizationMode;
  isHNCServiceAccount : UserInfo -> bool;
  (** [o.decoder.Decode(req, inst)] and [o.decoder.DecodeRaw(raw, inst)] *)
  Decode : AdmissionRequest -> error + Unstructured;
  DecodeRaw : option string -> error + Unstructured;
  (** [o.client.Get(ctx, types.NamespacedName{Name: ns}, nsObj)] *)
  getNamespace : string -> error + NamespaceObject;
  (** [object.Canonical] *)
  Canonical : Unstructured -> Canon;
  (** the checks on source objects; they rest on the selectors package
      and on the forest, and [hasConflict] comes with the text that lists
      the conflicting descendants *)
  validateSelectorAnnot : Unstructured -> string;
  validateSelectorChange : Unstructured -> Unstructured -> option error;
  validateTreeSelectorChange : Unstructured -> Unstructured -> option error;
  validateNoneSelectorChange : Unstructured -> Unstructured -> option error;
  validateSelectorUniqueness : Unstructured -> Unstructured -> string;
  hasConflict : Unstructured -> bool * string
}.
Arguments LabelInheritedFrom {Canon} _.
Arguments AnnotationTreeSelector {Canon} _.
Arguments EX {Canon} _ _.
Arguments GetTypeSyncerMode {Canon} _ _ _.
Arguments isHNCServiceAccount {Canon} _ _.
Arguments Decode {Canon} _ _.
Arguments DecodeRaw {Canon} _ _.
Arguments getNamespace {Canon} _ _.
Arguments Canonical {Canon} _ _.
Arguments validateSelectorAnnot {Canon} _ _.
Arguments validateSelectorChange {Canon} _ _ _.
Arguments validateTreeSelectorChange {Canon} _ _ _.
Arguments validateNoneSelectorChange {Canon} _ _ _.
Arguments validateSelectorUniqueness {Canon} _ _ _.
Arguments hasConflict {Canon} _ _.

Section Validator.
Context {Canon : Type} `{EqDecision Canon} (o : Object Canon).

Definition isPropagateType (gvk : GroupVersionKind) : bool :=
  match GetTypeSyncerMode o (Group gvk) (Kind gvk) with
  | Some Propagate => true
  | _ => false
  end.

(** [isDeletingNS]: is the namespace of the object being deleted? *)
Definition isDeletingNS (ns : string) : bool * option error :=
  match getNamespace o ns with
  | inl err =>
      if Syncer.IsNotFound (Some err) then (true, None)
      else (false,
            Some (Syncer.Errorf
                    ("while determining whether namespace " ++ dq ++ ns ++ dq ++
                     " is being deleted: " ++ Syncer.ErrorText err)))
  | inr nsObj =>
      if negb (IsZero (DeletionTimestamp nsObj)) then (true, None)
      else (false, None)
  end.

Definition handleInherited (op : Operation) (newSource oldSource : string)
    (inst oldInst : Unstructured) : Response :=
  match op with
  | Create =>
      deny StatusReasonForbidden
        ("Cannot create objects with the label " ++ dq ++ LabelInheritedFrom o ++ dq)
  | Delete =>
      match isDeletingNS (objNamespace oldInst) with
      | (_, Some err) =>
          deny StatusReasonInternalError
            ("Cannot delete object propagated from namespace " ++ dq ++ oldSource
             ++ dq ++ " with error: " ++ Syncer.ErrorText err)
      | (false, None) =>
          deny StatusReasonForbidden
            ("Cannot delete object propagated from namespace " ++ dq ++ oldSource ++ dq)
      | (true, None) =>
          allow "allowing deletion of propagated object since namespace is being deleted"
      end
  | Update =>
      if decide (newSource <> oldSource) then
        deny StatusReasonForbidden
          ("Cannot modify the label " ++ dq ++ LabelInheritedFrom o ++ dq)
      else if decide (Canonical o inst <> Canonical o oldInst) then
        deny StatusReasonForbidden
          ("Cannot modify object propagated from namespace " ++ dq ++ oldSource ++ dq)
      else allow "no illegal updates to propagated object"
  | Connect =>
      deny StatusReasonInternalError ("unknown operation: " ++ OperationName op)
  end.

(** The checks on an object that was not and is not inherited. *)
Definition handleSource (inst oldInst : Unstructured) : Response :=
  let msg := validateSelectorAnnot o inst in
  if negb (String.eqb msg "") then deny StatusReasonBadRequest msg
  else
    match validateSelectorChange o inst oldInst with
    | Some err =>
        deny StatusReasonBadRequest
          ("Invalid Kubernetes labelSelector: " ++ Syncer.ErrorText err)
    | None =>
    match validateTreeSelectorChange o inst oldInst with
    | Some err =>
        deny StatusReasonBadRequest
          ("Invalid HNC " ++ dq ++ AnnotationTreeSelector o ++ dq ++ " value: "
           ++ Syncer.ErrorText err)
    | None =>
    match validateNoneSelectorChange o inst oldInst with
    | Some err => deny StatusReasonBadRequest (Syncer.ErrorText err)
    | None =>
        let msg := validateSelectorUniqueness o inst oldInst in
        if negb (String.eqb msg "") then deny StatusReasonBadRequest msg
        else
          match hasConflict o inst with
          | (true, msg) => deny StatusReasonConflict msg
          | (false, _) => allow "source object"
          end
    end end end.

Definition handle (op : Operation) (inst oldInst : Unstructured) : Response :=
  let '(oldSource, oldInherited) := GetLabel oldInst (LabelInheritedFrom o) in
  let '(newSource, newInherited) := GetLabel inst (LabelInheritedFrom o) in
  if negb oldInherited && negb newInherited then handleSource inst oldInst
  else handleInherited op newSource oldSource inst oldInst.

Definition isDelete (op : Operation) : bool :=
  match op with Delete => true | _ => false end.

Definition isCreate (op : Operation) : bool :=
  match op with Create => true | _ => false end.

Definition Handle (req : AdmissionRequest) : Response :=
  if EX o (ReqNamespace req) then
    allow ("excluded namespace " ++ ReqNamespace req)
  else if negb (isPropagateType (ReqKind req)) then
    allow "Non-propagate-mode types"
  else if isHNCServiceAccount o (ReqUserInfo req) then allow "HNC SA"
  else
    let op := ReqOperation req in
    match (if negb (isDelete op) then Decode o req else inr emptyObject) with
    | inl err => deny StatusReasonBadRequest (Syncer.ErrorText err)
    | inr inst =>
        if negb (isCreate op) then
          if isDelete op && negb (bool_decide (is_Some (ReqOldObject req))) then
            allow "cannot validate deletions in K8s 1.14"
          else
            match DecodeRaw o (ReqOldObject req) with
            | inl err => deny StatusReasonBadRequest (Syncer.ErrorText err)
            | inr oldInst => handle op inst oldInst
            end
        else handle op inst emptyObject
    end.

(** *** Specification-side notions *)

(** The object carries the [LabelInheritedFrom] label. *)
Definition Inherited (inst : Unstructured) : Prop :=
  is_Some (objLabels inst !! LabelInheritedFrom o).


(** The request is one of a user that is not the HNC service account,
    with objects that decode to [inst] and [oldInst] as far as the
    operation has them. *)
Definition UserRequest (req : AdmissionRequest) (inst oldInst : Unstructured)
    : Prop :=
  isHNCServiceAccount o (ReqUserInfo req) = false /\
  match ReqOperation req with
  | Create => Decode o req = inr inst /\ oldInst = emptyObject
  | Delete => inst = emptyObject /\ is_Some (ReqOldObject req) /\
              DecodeRaw o (ReqOldObject req) = inr oldInst
  | _ => Decode o req = inr inst /\ DecodeRaw o (ReqOldObject req) = inr oldInst
  end.



End Validator.

(** *** A concrete validator

    Raw objects are keys into a table of decoded objects; [kube-system]
    is excluded; every kind is in propagate mode; the canonical form of an
    object is its name, its namespace and its content without the
    status, which the table keeps apart under the annotation [status]. *)
Definition inheritedFrom : string := "hnc.x-k8s.io/inherited-from".

Definition fakeValidator (table : gmap string Unstructured)
    (namespaces : gmap string NamespaceObject)
    : Object (string * string * string) := {|
  LabelInheritedFrom := inheritedFrom;
  AnnotationTreeSelector := "propagate.hnc.x-k8s.io/treeSelect";
  EX := fun ns => bool_decide (ns = "kube-system"%string);
  GetTypeSyncerMode := fun _ _ => Some Propagate;
  isHNCServiceAccount := fun u =>
    bool_decide (Username u = "system:serviceaccount:hnc-system:default"%string);
  Decode := fun req =>
    match ReqObject req ≫= (table !!.) with
    | Some inst => inr inst
    | None => inl (Syncer.Errorf "there is no content to decode")
    end;
  DecodeRaw := fun raw =>
    match raw ≫= (table !!.) with
    | Some inst => inr inst
    | None => inl (Syncer.Errorf "there is no content to decode")
    end;
  getNamespace := fun ns =>
    match namespaces !! ns with
    | Some nsObj => inr nsObj
    | None => inl (Syncer.StatusError Syncer.StatusReasonNotFound)
    end;
  Canonical := fun inst => (objName inst, objNamespace inst, objContent inst);
  validateSelectorAnnot := fun _ => ""%string;
  validateSelectorChange := fun _ _ => None;
  validateTreeSelectorChange := fun _ _ => None;
  validateNoneSelectorChange := fun _ _ => None;
  validateSelectorUniqueness := fun _ _ => ""%string;
  hasConflict := fun _ => (false, ""%string)
|}.

(** A secret propagated from [parent], with a status. *)
Definition propagated (ns status : string) : Unstructured :=
  {| objName := "creds"; objNamespace := ns;
     objLabels := {[ inheritedFrom := "parent"%string ]};
     objAnnotations := {[ "status" := status ]}; objContent := "data" |}.

Definition alice : UserInfo := {| Username := "alice"; Groups := [] |}.
Definition secrets : GroupVersionKind :=
  {| Group := ""; Version := "v1"; Kind := "Secret" |}.

Definition request (ns : string) (op : Operation) (new old : option string)
    : AdmissionRequest :=
  {| ReqNamespace := ns; ReqKind := secrets; ReqOperation := op;
     ReqUserInfo := alice; ReqObject := new; ReqOldObject := old |}.

Definition objects : gmap string Unstructured :=
  {[ "sys" := propagated "kube-system" "";
     "old" := propagated "child" "pending";
     "new" := propagated "child" "ready" ]}.

Definition live : gmap string NamespaceObject :=
  {[ "child" := {| DeletionTimestamp := None |} ]}.

Definition validator := fakeValidator objects live.


End ObjectValidator.

(** ** The checks on source objects (HNC object validator)

    [validateSelectorAnnot], [validateSelectorUniqueness], the three
    [validate...SelectorChange] and [hasConflict], which [handle] runs on
    an object that is not propagated. *)
Module SourceChecks.
Import ObjectValidator.

(** [strings.SplitN(s, sep, 2)] for a separator of one character: the
    text before the first separator and, when there is one, the text
    after it. *)
Fixpoint cut (sep : Ascii.ascii) (s : string) : string * option string :=
  match s with
  | EmptyString => (EmptyString, None)
  | String a rest =>
      if Ascii.eqb a sep then (EmptyString, Some rest)
      else let '(h, t) := cut sep rest in (String a h, t)
  end.

Definition SplitN2 (s : string) (sep : Ascii.ascii) : list string :=
  match cut sep s with
  | (h, None) => [h]
  | (h, Some t) => [h; t]
  end.

(** [strings.Join(elems, sep)] *)
Fixpoint Join (elems : list string) (sep : string) : string :=
  match elems with
  | [] => ""
  | [e] => e
  | e :: rest => e ++ sep ++ Join rest sep
  end.

Definition slash : Ascii.ascii := Ascii.ascii_of_nat 47.
Definition dot : Ascii.ascii := Ascii.ascii_of_nat 46.

(** The constants of the api package, the selectors package and the
    forest, none of which is among the sources modelled here.  [Labels]
    is the type of the labels of a namespace. *)
Record Packages (Labels : Type) := {
  MetaGroup : string;
  AnnotationPropagatePrefix : string;
  AnnotationSelector : string;
  AnnotationTreeSelector : string;
  AnnotationNoneSelector : string;
  (** [selectors.Get...Annotation(inst)] *)
  GetSelectorAnnotation : Unstructured -> string;
  GetTreeSelectorAnnotation : Unstructured -> string;
  GetNoneSelectorAnnotation : Unstructured -> string;
  (** the error of [selectors.GetSelector(inst)] and its two siblings *)
  GetSelector : Unstructured -> option error;
  GetTreeSelector : Unstructured -> option error;
  GetNoneSelector : Unstructured -> option error;
  (** the [ok] of [selectors.ShouldPropagate(inst, nsLabels)] *)
  ShouldPropagate : Unstructured -> Labels -> bool;
  (** [inst.GroupVersionKind()] *)
  GroupVersionKindOf : Unstructured -> GroupVersionKind;
  (** [o.Forest.Get(ns)]: [DescendantNames], [HasSourceObject], [GetLabels] *)
  DescendantNames : string -> list string;
  HasSourceObject : string -> GroupVersionKind -> string -> bool;
  GetLabels : string -> Labels
}.
Arguments MetaGroup {Labels} _.
Arguments AnnotationPropagatePrefix {Labels} _.
Arguments AnnotationSelector {Labels} _.
Arguments AnnotationTreeSelector {Labels} _.
Arguments AnnotationNoneSelector {Labels} _.
Arguments GetSelectorAnnotation {Labels} _ _.
Arguments GetTreeSelectorAnnotation {Labels} _ _.
Arguments GetNoneSelectorAnnotation {Labels} _ _.
Arguments GetSelector {Labels} _ _.
Arguments GetTreeSelector {Labels} _ _.
Arguments GetNoneSelector {Labels} _ _.
Arguments ShouldPropagate {Labels} _ _ _.
Arguments GroupVersionKindOf {Labels} _ _.
Arguments DescendantNames {Labels} _ _.
Arguments HasSourceObject {Labels} _ _ _ _.
Arguments GetLabels {Labels} _ _.

Section Checks.
Context {Labels : Type} (k : Packages Labels).

(** The text [validateSelectorAnnot] returns for [key]; the constants
    carry no formatting verb. *)
Definition invalidAnnotation (key : string) : string :=
  ("invalid HNC exceptions annotation: " ++ key ++
   ", should be one of the following: " ++
   AnnotationSelector k ++ "; " ++ AnnotationTreeSelector k ++ "; " ++
   AnnotationNoneSelector k)%string.

(** The body of the loop of [validateSelectorAnnot]: [None] goes on to
    the next key, [Some msg] returns. *)
Definition checkAnnotation (key : string) : option string :=
  let segs0 := (cut slash key).1 in
  match SplitN2 segs0 dot with
  | [_; prefix1] =>
      if negb (String.eqb prefix1 (MetaGroup k)) then None
      else if negb (String.eqb segs0 (AnnotationPropagatePrefix k)) then
        Some (invalidAnnotation key)
      else if negb (String.eqb key (AnnotationSelector k))
              && negb (String.eqb key (AnnotationTreeSelector k))
              && negb (String.eqb key (AnnotationNoneSelector k)) then
        Some (invalidAnnotation key)
      else None
  | _ => None
  end.

(** [validateSelectorAnnot], the keys ranged over in the order [keys]. *)
Fixpoint validateSelectorAnnotIn (keys : list string) : string :=
  match keys with
  | [] => ""
  | key :: rest =>
      match checkAnnotation key with
      | Some msg => msg
      | None => validateSelectorAnnotIn rest
      end
  end.

Definition validateSelectorAnnot (inst : Unstructured) : string :=
  validateSelectorAnnotIn (map_to_list (objAnnotations inst)).*1.

Definition validateSelectorUniqueness (inst oldInst : Unstructured) : string :=
  let sel := GetSelectorAnnotation k inst in
  let treeSel := GetTreeSelectorAnnotation k inst in
  let noneSel := GetNoneSelectorAnnotation k inst in
  let oldSel := GetSelectorAnnotation k oldInst in
  let oldTreeSel := GetTreeSelectorAnnotation k oldInst in
  let oldNoneSel := GetNoneSelectorAnnotation k oldInst in
  let isSelectorChange :=
    negb (String.eqb oldSel sel) || negb (String.eqb oldTreeSel treeSel)
    || negb (String.eqb oldNoneSel noneSel) in
  if negb isSelectorChange then ""%string
  else
    let found :=
      (if negb (String.eqb sel "") then [AnnotationSelector k] else [])
      ++ (if negb (String.eqb treeSel "") then [AnnotationTreeSelector k] else [])
      ++ (if negb (String.eqb noneSel "") then [AnnotationNoneSelector k] else []) in
    if (length found <=? 1)%nat then ""%string
    else ("cannot have more than one selector at the same time, but got multiple: "
          ++ Join found ", ")%string.

Definition validateSelectorChange (inst oldInst : Unstructured) : option error :=
  let oldSelectorStr := GetSelectorAnnotation k oldInst in
  let newSelectorStr := GetSelectorAnnotation k inst in
  if String.eqb newSelectorStr "" || String.eqb oldSelectorStr newSelectorStr
  then None
  else GetSelector k inst.

Definition validateTreeSelectorChange (inst oldInst : Unstructured)
    : option error :=
  let oldSelectorStr := GetTreeSelectorAnnotation k oldInst in
  let newSelectorStr := GetTreeSelectorAnnotation k inst in
  if String.eqb newSelectorStr "" || String.eqb oldSelectorStr newSelectorStr
  then None
  else GetTreeSelector k inst.

Definition validateNoneSelectorChange (inst oldInst : Unstructured)
    : option error :=
  let oldSelectorStr := GetNoneSelectorAnnotation k oldInst in
  let newSelectorStr := GetNoneSelectorAnnotation k inst in
  if String.eqb newSelectorStr "" || String.eqb oldSelectorStr newSelectorStr
  then None
  else GetNoneSelector k inst.

(** [hasConflict]; the instance that [handle] passes is never nil. *)
Definition hasConflict (inst : Unstructured) : bool * list string :=
  if String.eqb (objNamespace inst) "" then (false, [])
  else
    let nm := objName inst in
    let gvk := GroupVersionKindOf k inst in
    let descs := DescendantNames k (objNamespace inst) in
    let conflicts :=
      foldl (fun conflicts desc =>
               if HasSourceObject k desc gvk nm then
                 if ShouldPropagate k inst (GetLabels k (objNamespace inst))
                 then conflicts ++ [desc] else conflicts
               else conflicts) [] descs in
    (negb (length conflicts =? 0)%nat, conflicts).

(** *** Specification-side notions *)

(** The key is of the HNC meta group: the text before its first slash
    has a dot, and what follows the first dot is the meta group. *)
Definition InMetaGroup (key : string) : Prop :=
  (cut dot (cut slash key).1).2 = Some (MetaGroup k).

(** The key is one of the three selector annotations, under the
    propagate prefix. *)
Definition KnownException (key : string) : Prop :=
  (cut slash key).1 = AnnotationPropagatePrefix k /\
  (key = AnnotationSelector k \/ key = AnnotationTreeSelector k \/
   key = AnnotationNoneSelector k).

(** No selector annotation differs between the two objects. *)
Definition SelectorsUnchanged (inst oldInst : Unstructured) : Prop :=
  GetSelectorAnnotation k oldInst = GetSelectorAnnotation k inst /\
  GetTreeSelectorAnnotation k oldInst = GetTreeSelectorAnnotation k inst /\
  GetNoneSelectorAnnotation k oldInst = GetNoneSelectorAnnotation k inst.

(** The number of selector annotations the object sets. *)
Definition selectorsSet (inst : Unstructured) : nat :=
  ((if decide (GetSelectorAnnotation k inst = ""%string) then 0 else 1)
   + (if decide (GetTreeSelectorAnnotation k inst = ""%string) then 0 else 1)
   + (if decide (GetNoneSelectorAnnotation k inst = ""%string) then 0 else 1))%nat.

End Checks.

(** *** HNC's own values

    The values the comments of [validateSelectorAnnot] give for the meta
    group and the propagate prefix, the three annotations under it, the
    annotations read off the object, a parser that accepts no selector,
    and a forest in which [parent] has the descendants [child] and
    [grandchild]; [child] has a source object named [creds]. *)
Definition hnc : Packages (gmap string string) := {|
  MetaGroup := "hnc.x-k8s.io";
  AnnotationPropagatePrefix := "propagate.hnc.x-k8s.io";
  AnnotationSelector := "propagate.hnc.x-k8s.io/select";
  AnnotationTreeSelector := "propagate.hnc.x-k8s.io/treeSelect";
  AnnotationNoneSelector := "propagate.hnc.x-k8s.io/none";
  GetSelectorAnnotation := fun inst =>
    default ""%string (objAnnotations inst !! "propagate.hnc.x-k8s.io/select");
  GetTreeSelectorAnnotation := fun inst =>
    default ""%string (objAnnotations inst !! "propagate.hnc.x-k8s.io/treeSelect");
  GetNoneSelectorAnnotation := fun inst =>
    default ""%string (objAnnotations inst !! "propagate.hnc.x-k8s.io/none");
  GetSelector := fun _ => Some (Syncer.Errorf "invalid selector");
  GetTreeSelector := fun _ => Some (Syncer.Errorf "invalid tree selector");
  GetNoneSelector := fun _ => Some (Syncer.Errorf "invalid none selector");
  ShouldPropagate := fun _ _ => true;
  GroupVersionKindOf := fun _ => secrets;
  DescendantNames := fun ns =>
    if String.eqb ns "parent" then ["child"; "grandchild"]%string else [];
  HasSourceObject := fun desc _ nm =>
    String.eqb desc "child" && String.eqb nm "creds";
  GetLabels := fun _ => ∅
|}.

(** A source object with two selectors at once, neither of which
    parses. *)
Definition twoSelectors : Unstructured :=
  {| objName := "creds"; objNamespace := "parent"; objLabels := ∅;
     objAnnotations :=
       {[ "propagate.hnc.x-k8s.io/select" := "!!";
          "propagate.hnc.x-k8s.io/none" := "maybe" ]};
     objContent := "data" |}.

End SourceChecks.

(** ** Properties of the float64 model

    The goal is [ceil_div_exact]: on integers below [2 ^ 53] the float
    computation [int(math.Ceil(float64(q) / float64(v)))] is exact. *)
Module Float64Facts.
Import Float64.

Lemma digits2_size (p : positive) : digits2_pos p = Pos.size p.
Proof. induction p; cbn; congruence. Qed.

(** The number of binary digits of a positive integer. *)
Lemma Zdigits2_log2 (n : Z) : 0 < n -> Zdigits2 n = Z.log2 n + 1.
Proof.
  destruct n as [|p|p]; try lia. intros _. cbn [Zdigits2].
  rewrite digits2_size. destruct p; cbn; lia.
Qed.

Lemma Zdigits2_unique (n d : Z) :
  2 ^ (d - 1) <= n < 2 ^ d -> 1 <= d -> Zdigits2 n = d.
Proof.
  intros Hn Hd. assert (0 < n) by (pose proof (Z.pow_pos_nonneg 2 (d - 1)); lia).
  rewrite Zdigits2_log2 by done.
  rewrite (Z.log2_unique n (d - 1)); try lia.
  replace (Z.succ (d - 1)) with d by lia. done.
Qed.

Lemma Zdigits2_bounds (n : Z) :
  0 < n -> 2 ^ (Zdigits2 n - 1) <= n < 2 ^ Zdigits2 n /\ 1 <= Zdigits2 n.
Proof.
  intros Hn. rewrite Zdigits2_log2 by done.
  pose proof (Z.log2_spec n Hn). pose proof (Z.log2_nonneg n).
  replace (Z.log2 n + 1 - 1) with (Z.log2 n) by lia.
  replace (Z.log2 n + 1) with (Z.succ (Z.log2 n)) by lia. lia.
Qed.

Lemma iter_xO (p d : positive) : Zpos (Pos.iter xO p d) = Zpos p * 2 ^ Zpos d.
Proof.
  induction d as [|d IH] using Pos.peano_ind.
  - cbn. lia.
  - rewrite Pos.iter_succ, Pos2Z.inj_succ, Z.pow_succ_r by lia.
    rewrite Pos2Z.inj_xO, IH. lia.
Qed.

Lemma fexp_53 (e : Z) : fexp prec emax e = Z.max (e - 53) (-1074).
Proof. reflexivity. Qed.

Lemma loc_of_record (m : Z) (l : location) :
  loc_of_shr_record (shr_record_of_loc m l) = l /\
  shr_m (shr_record_of_loc m l) = m.
Proof. by destruct l as [|[| |]]. Qed.

(** One shift to the right: the last bit becomes the round bit. *)
Lemma shr_1_spec (m : Z) (r s : bool) :
  0 <= m ->
  shr_1 {| shr_m := m; shr_r := r; shr_s := s |}
  = {| shr_m := m / 2; shr_r := Z.odd m; shr_s := r || s |}.
Proof.
  intros Hm. rewrite <- Z.div2_div.
  destruct m as [|[p|p|]|p]; try reflexivity. lia.
Qed.

(** A mantissa of 53 digits is kept, one of 54 digits is shifted once. *)
Lemma shr_fexp_53 (m e : Z) (l : location) :
  2 ^ 52 <= m < 2 ^ 53 -> -1074 <= e ->
  shr_fexp prec emax m e l = (shr_record_of_loc m l, e).
Proof.
  intros Hm He. unfold shr_fexp.
  rewrite (Zdigits2_unique m 53), fexp_53 by lia.
  replace (Z.max (53 + e - 53) (-1074) - e) with 0 by lia. reflexivity.
Qed.

Lemma shr_fexp_54 (m e : Z) (l : location) :
  2 ^ 53 <= m < 2 ^ 54 -> -1075 <= e ->
  shr_fexp prec emax m e l = (shr_1 (shr_record_of_loc m l), e + 1).
Proof.
  intros Hm He. unfold shr_fexp.
  rewrite (Zdigits2_unique m 54), fexp_53 by lia.
  replace (Z.max (54 + e - 53) (-1074) - e) with 1 by lia. reflexivity.
Qed.

Lemma normalize_rounded (m1 e1 : Z) :
  2 ^ 52 <= m1 <= 2 ^ 53 -> -1074 <= e1 <= 970 ->
  (let '(mrs, e) := shr_fexp prec emax m1 e1 loc_Exact in
   match shr_m mrs with
   | Z0 => S754_zero false
   | Zpos m => if e <=? emax - prec then S754_finite false m e
               else S754_infinity false
   | Zneg _ => S754_nan
   end) = pack m1 e1.
Proof.
  intros Hm He. unfold pack.
  destruct (Z.ltb_spec m1 (2 ^ 53)) as [Hlt|Hge].
  - rewrite shr_fexp_53 by lia. cbn [shr_record_of_loc shr_m].
    destruct m1 as [|p|p]; try lia.
    destruct (Z.leb_spec e1 (emax - prec)) as [_|Hbad]; [done|].
    unfold emax, prec in Hbad. lia.
  - assert (m1 = 2 ^ 53) as -> by lia.
    rewrite shr_fexp_54 by lia. cbn [shr_record_of_loc].
    rewrite shr_1_spec by lia. cbn [shr_m].
    change (2 ^ 53 / 2) with (2 ^ 52).
    destruct (Z.leb_spec (e1 + 1) (emax - prec)) as [_|Hbad]; [done|].
    unfold emax, prec in Hbad. lia.
Qed.

Lemma round_nearest_even_bounds (m : Z) (l : location) :
  m <= round_nearest_even m l <= m + 1.
Proof. destruct l as [|[| |]]; cbn; try destruct (Z.even m); lia. Qed.

Lemma binary_round_aux_53 (m e : Z) (l : location) :
  2 ^ 52 <= m < 2 ^ 53 -> -1074 <= e <= 970 ->
  binary_round_aux prec emax false m e l = pack (round_nearest_even m l) e.
Proof.
  intros Hm He. unfold binary_round_aux.
  rewrite shr_fexp_53 by lia.
  destruct (loc_of_record m l) as [-> ->].
  pose proof (round_nearest_even_bounds m l).
  apply normalize_rounded; lia.
Qed.

Lemma binary_round_aux_54 (m e : Z) (l : location) :
  2 ^ 53 <= m < 2 ^ 54 -> -1075 <= e <= 969 ->
  binary_round_aux prec emax false m e l
  = pack (round_nearest_even (m / 2)
            (loc_of_shr_record (shr_1 (shr_record_of_loc m l)))) (e + 1).
Proof.
  intros Hm He. unfold binary_round_aux.
  rewrite shr_fexp_54 by lia.
  assert (Hhalf : shr_m (shr_1 (shr_record_of_loc m l)) = m / 2).
  { destruct l as [|[| |]]; cbn [shr_record_of_loc]; by rewrite shr_1_spec by lia. }
  rewrite Hhalf.
  pose proof (round_nearest_even_bounds (m / 2)
                (loc_of_shr_record (shr_1 (shr_record_of_loc m l)))).
  assert (2 ^ 52 <= m / 2 < 2 ^ 53).
  { change (2 ^ 54) with (2 * 2 ^ 53) in Hm. change (2 ^ 53) with (2 * 2 ^ 52) in Hm.
    split; [apply Z.div_le_lower_bound | apply Z.div_lt_upper_bound]; lia. }
  apply normalize_rounded; lia.
Qed.

Lemma shl_align_spec (p : positive) (ex ex' : Z) :
  ex' <= ex ->
  Zpos (shl_align p ex ex').1 = Zpos p * 2 ^ (ex - ex') /\
  (shl_align p ex ex').2 = ex'.
Proof.
  intros Hle. unfold shl_align.
  destruct (ex' - ex) as [|d|d] eqn:Hd; cbn [fst snd]; try lia.
  - replace (ex - ex') with 0 by lia. lia.
  - rewrite iter_xO. replace (ex - ex') with (Zpos d) by lia. done.
Qed.

Lemma norm_bounds (n : Z) :
  0 < n < 2 ^ 53 -> 2 ^ 52 <= norm n < 2 ^ 53 /\ 1 <= Zdigits2 n <= 53.
Proof.
  intros Hn. destruct (Zdigits2_bounds n) as [Hd Hd1]; [lia|].
  assert (Hd53 : Zdigits2 n <= 53).
  { destruct (Z.le_gt_cases (Zdigits2 n) 53) as [|Hgt]; [done|].
    assert (2 ^ 53 <= 2 ^ (Zdigits2 n - 1)) by (apply Z.pow_le_mono_r; lia). lia. }
  split; [|lia]. unfold norm.
  set (d := Zdigits2 n) in *. set (s := 53 - d).
  assert (Hs : 0 < 2 ^ s) by (apply Z.pow_pos_nonneg; lia).
  assert (H52 : 2 ^ 52 = 2 ^ (d - 1) * 2 ^ s).
  { rewrite <- Z.pow_add_r by lia. f_equal. lia. }
  assert (H53 : 2 ^ 53 = 2 ^ d * 2 ^ s).
  { rewrite <- Z.pow_add_r by lia. f_equal. lia. }
  rewrite H52, H53. nia.
Qed.

(** [float64(n)] for a positive integer below [2 ^ 53]: exact. *)
Lemma of_int_pos (n : Z) :
  0 < n < 2 ^ 53 ->
  of_int n = S754_finite false (Z.to_pos (norm n)) (Zdigits2 n - 53).
Proof.
  intros Hn. destruct (norm_bounds n Hn) as [Hnorm Hd].
  destruct n as [|p|p]; try lia.
  unfold of_int, binary_normalize, binary_round.
  change (Zpos (digits2_pos p)) with (Zdigits2 (Zpos p)).
  rewrite fexp_53.
  replace (Z.max (Zdigits2 (Zpos p) + 0 - 53) (-1074)) with (Zdigits2 (Zpos p) - 53) by lia.
  destruct (shl_align_spec p 0 (Zdigits2 (Zpos p) - 53)) as [Hm He]; [lia|].
  destruct (shl_align p 0 (Zdigits2 (Zpos p) - 53)) as [mz ez]. cbn [fst snd] in Hm, He.
  subst ez.
  assert (Hmz : Zpos mz = norm (Zpos p)).
  { rewrite Hm. unfold norm. f_equal. f_equal. lia. }
  rewrite binary_round_aux_53 by lia.
  cbn [round_nearest_even]. unfold pack.
  destruct (Z.ltb_spec (Zpos mz) (2 ^ 53)); [|lia].
  by rewrite <- Hmz.
Qed.

Lemma of_int_zero : of_int 0 = S754_zero false.
Proof. reflexivity. Qed.

(** [int(float64(k))] gives [k] back. *)
Lemma to_int_of_int (k : Z) : 0 <= k < 2 ^ 53 -> to_int (of_int k) = k.
Proof.
  intros Hk. destruct (Z.eq_dec k 0) as [->|Hnz]; [reflexivity|].
  rewrite of_int_pos by lia.
  destruct (norm_bounds k) as [Hnorm Hd]; [lia|].
  unfold to_int. cbn [cond_Zopp]. rewrite Z2Pos.id by lia.
  assert (Ht : (if 0 <=? Zdigits2 k - 53 then norm k * 2 ^ (Zdigits2 k - 53)
                else Z.quot (norm k) (2 ^ (- (Zdigits2 k - 53)))) = k).
  { unfold norm. destruct (Z.leb_spec 0 (Zdigits2 k - 53)).
    - replace (Zdigits2 k - 53) with 0 by lia.
      replace (53 - Zdigits2 k) with 0 by lia. lia.
    - replace (- (Zdigits2 k - 53)) with (53 - Zdigits2 k) by lia.
      apply Z.quot_mul. apply Z.pow_nonzero; lia. }
  rewrite Ht.
  destruct (Z.leb_spec min_int64 k) as [_|Hbad]; [|unfold min_int64 in Hbad; lia].
  destruct (Z.leb_spec k max_int64) as [_|Hbad]; [done|unfold max_int64 in Hbad; lia].
Qed.

Lemma new_location_spec (b R : Z) :
  0 < b -> 0 <= R < b -> new_location b R = remainder_location b R.
Proof.
  intros Hb HR. unfold new_location, remainder_location.
  destruct (Z.even b) eqn:Hev.
  - reflexivity.
  - unfold new_location_odd. destruct (R =? 0); [reflexivity|]. f_equal.
    assert (Hodd : Z.odd b = true) by (rewrite <- Z.negb_even, Hev; done).
    apply Z.odd_spec in Hodd as [h ->].
    destruct (Z.compare_spec (2 * R + 1) (2 * h + 1)),
             (Z.compare_spec (2 * R) (2 * h + 1)); try reflexivity; lia.
Qed.

(** Rounding the quotient [Q] with remainder [R] to nearest. *)
Lemma round_quotient (Q b R : Z) :
  0 < b -> 0 <= R < b ->
  Z.abs (2 * round_nearest_even Q (remainder_location b R) * b
         - 2 * (b * Q + R)) <= b.
Proof.
  intros Hb HR. unfold remainder_location.
  destruct (Z.eqb_spec R 0) as [->|Hnz]; cbn [round_nearest_even]; [lia|].
  destruct (Z.compare_spec (2 * R) b); try destruct (Z.even Q); lia.
Qed.

(** The same after one shift of the quotient to the right. *)
Lemma round_shifted_quotient (Q b R : Z) :
  0 <= Q -> 0 < b -> 0 <= R < b ->
  Z.abs (2 * round_nearest_even (Q / 2)
               (loc_of_shr_record
                  (shr_1 (shr_record_of_loc Q (remainder_location b R)))) * b
         - (b * Q + R)) <= b.
Proof.
  intros HQ Hb HR.
  pose proof (Z.div2_odd Q) as Hhalf. rewrite Z.div2_div in Hhalf.
  unfold remainder_location.
  destruct (Z.eqb_spec R 0) as [->|Hnz].
  - cbn [shr_record_of_loc]. rewrite shr_1_spec by done.
    destruct (Z.odd Q); cbn in *; try destruct (Z.even (Q / 2)); nia.
  - destruct (2 * R ?= b); cbn [shr_record_of_loc]; rewrite shr_1_spec by done;
      destruct (Z.odd Q); cbn in *; nia.
Qed.

Lemma div_core (a b ea eb : Z) :
  2 ^ 52 <= a < 2 ^ 53 -> 2 ^ 52 <= b < 2 ^ 53 ->
  -52 <= ea <= 0 -> -52 <= eb <= 0 ->
  SFdiv_core_binary prec emax a ea b eb
  = (a * 2 ^ 53 / b, ea - eb - 53, remainder_location b (a * 2 ^ 53 mod b)).
Proof.
  intros Ha Hb Hea Heb. unfold SFdiv_core_binary.
  rewrite (Zdigits2_unique a 53), (Zdigits2_unique b 53), fexp_53 by lia.
  replace (Z.min (Z.max (53 + ea - (53 + eb) - 53) (-1074)) (ea - eb))
    with (ea - eb - 53) by lia.
  replace (ea - eb - (ea - eb - 53)) with 53 by lia.
  rewrite Z.shiftl_mul_pow2 by lia.
  unfold Z.div, Z.modulo.
  pose proof (Z_div_mod (a * 2 ^ 53) b ltac:(lia)) as Hdm.
  destruct (Z.div_eucl (a * 2 ^ 53) b) as [Q R].
  rewrite new_location_spec by lia. reflexivity.
Qed.

(** The quotient of two floats with mantissas of 53 digits: a mantissa
    [m1] nearest to the exact quotient, at the exponent of the quotient or
    one above. *)
Lemma div_nearest (a b ea eb : Z) :
  2 ^ 52 <= a < 2 ^ 53 -> 2 ^ 52 <= b < 2 ^ 53 ->
  -52 <= ea <= 0 -> -52 <= eb <= 0 ->
  exists m1 t,
    (t = 0 \/ t = 1) /\
    SFdiv prec emax (S754_finite false (Z.to_pos a) ea)
      (S754_finite false (Z.to_pos b) eb)
    = pack m1 (ea - eb - 53 + t) /\
    2 ^ 52 <= m1 <= 2 ^ 53 /\
    Z.abs (2 * m1 * b * 2 ^ t - 2 * a * 2 ^ 53) <= b * 2 ^ t.
Proof.
  intros Ha Hb Hea Heb. unfold SFdiv. rewrite !Z2Pos.id by lia.
  rewrite div_core by lia. cbn [xorb].
  pose proof (Z_div_mod (a * 2 ^ 53) b ltac:(lia)) as Hdm.
  unfold Z.div, Z.modulo.
  destruct (Z.div_eucl (a * 2 ^ 53) b) as [Q R]. destruct Hdm as [Hdm HR].
  assert (HQ : 2 ^ 52 <= Q < 2 ^ 54) by nia.
  destruct (Z.lt_ge_cases Q (2 ^ 53)) as [Hlt|Hge].
  - exists (round_nearest_even Q (remainder_location b R)), 0.
    split; [by left|]. rewrite binary_round_aux_53 by lia.
    split; [f_equal; lia|].
    pose proof (round_nearest_even_bounds Q (remainder_location b R)).
    split; [lia|].
    pose proof (round_quotient Q b R ltac:(lia) HR). lia.
  - exists (round_nearest_even (Q / 2)
              (loc_of_shr_record
                 (shr_1 (shr_record_of_loc Q (remainder_location b R))))), 1.
    split; [by right|]. rewrite binary_round_aux_54 by lia.
    split; [f_equal; lia|].
    match goal with |- _ <= ?m <= _ /\ _ => set (m1 := m) end.
    pose proof (round_nearest_even_bounds (Q / 2)
                  (loc_of_shr_record
                     (shr_1 (shr_record_of_loc Q (remainder_location b R))))) as Hb1.
    fold m1 in Hb1.
    assert (2 ^ 52 <= Q / 2 < 2 ^ 53).
    { change (2 ^ 54) with (2 * 2 ^ 53) in HQ. change (2 ^ 53) with (2 * 2 ^ 52) in Hge.
      split; [apply Z.div_le_lower_bound | apply Z.div_lt_upper_bound]; lia. }
    split; [lia|].
    pose proof (round_shifted_quotient Q b R ltac:(lia) ltac:(lia) HR) as Hr.
    fold m1 in Hr. lia.
Qed.

(** The integer ceiling of a packed float. *)
Lemma ceil_int_pack (m1 e1 : Z) :
  2 ^ 52 <= m1 <= 2 ^ 53 -> e1 <= 0 ->
  ceil_int (pack m1 e1) = - ((- m1) / 2 ^ (- e1)).
Proof.
  intros Hm He. unfold pack.
  destruct (Z.ltb_spec m1 (2 ^ 53)) as [Hlt|Hge]; cbn [ceil_int cond_Zopp].
  - rewrite Z2Pos.id by lia. destruct (Z.leb_spec 0 e1); [|done].
    replace e1 with 0 by lia. cbn. rewrite Z.div_1_r. lia.
  - assert (m1 = 2 ^ 53) as -> by lia. rewrite Z2Pos.id by lia.
    assert (Hpow : 2 ^ (- e1) = 2 * 2 ^ (- (e1 + 1)) \/ e1 = 0).
    { destruct (Z.eq_dec e1 0); [by right|left].
      rewrite <- Z.pow_succ_r by lia. f_equal. lia. }
    assert (0 < 2 ^ (- (e1 + 1)) \/ e1 = 0).
    { destruct (Z.eq_dec e1 0); [by right|left]. apply Z.pow_pos_nonneg; lia. }
    destruct (Z.leb_spec 0 (e1 + 1)).
    + assert (e1 = 0 \/ e1 = -1) as [->| ->] by lia; reflexivity.
    + destruct Hpow as [->|]; [|lia].
      change (- 2 ^ 53) with (2 * - 2 ^ 52).
      rewrite Z.div_mul_cancel_l by lia. reflexivity.
Qed.

(** A mantissa nearest to [q * G / v] has the ceiling of [q / v] once it
    is divided by [G], as soon as [v < 2 * G]. *)
Lemma ceil_of_nearest (q v G m1 : Z) :
  0 <= q -> 0 < v -> 0 < G -> v < 2 * G ->
  Z.abs (2 * m1 * v - 2 * q * G) <= v ->
  - ((- m1) / G) = - ((- q) / v).
Proof.
  intros Hq Hv HG HvG Hnear.
  pose proof (Z.div_mod (- q) v ltac:(lia)) as Hdiv.
  pose proof (Z.mod_pos_bound (- q) v Hv) as Hmod.
  set (k := - ((- q) / v)) in *.
  assert (Hk : (k - 1) * v < q <= k * v) by (unfold k; nia).
  f_equal. replace ((- q) / v) with (- k) by (unfold k; lia).
  symmetry. apply (Z.div_unique (- m1) G (- k) (k * G - m1)); [|lia].
  left. split.
  - assert (2 * m1 * v <= 2 * k * G * v + v) by nia.
    assert (2 * m1 <= 2 * (k * G) + 1) by nia. lia.
  - assert (q >= (k - 1) * v + 1) by lia.
    assert (2 * m1 * v >= 2 * ((k - 1) * v + 1) * G - v) by nia.
    assert (2 * m1 * v > 2 * (k - 1) * G * v) by nia.
    assert (m1 > (k - 1) * G) by nia. lia.
Qed.

Lemma Ceil_pack (m1 e1 : Z) : Ceil (pack m1 e1) = of_int (ceil_int (pack m1 e1)).
Proof. unfold pack. by destruct (m1 <? 2 ^ 53). Qed.

(** Below [2 ^ 53] the float computation of the slice count is exact:
    [int(math.Ceil(float64(q) / float64(v)))] is the integer ceiling of
    [q / v]. *)
Lemma ceil_div_exact (q v : Z) :
  0 <= q < 2 ^ 53 -> 0 < v < 2 ^ 53 ->
  to_int (Ceil (div (of_int q) (of_int v))) = - ((- q) / v).
Proof.
  intros Hq Hv.
  destruct (Z.eq_dec q 0) as [->|Hq0].
  { rewrite (of_int_pos v), of_int_zero by lia. reflexivity. }
  destruct (norm_bounds q ltac:(lia)) as [Hnq Hdq].
  destruct (norm_bounds v ltac:(lia)) as [Hnv Hdv].
  destruct (Zdigits2_bounds v ltac:(lia)) as [Hv2 _].
  rewrite (of_int_pos q), (of_int_pos v) by lia. unfold div.
  destruct (div_nearest (norm q) (norm v) (Zdigits2 q - 53) (Zdigits2 v - 53))
    as (m1 & t & Ht & -> & Hm1 & Hnear); try lia.
  set (dq := Zdigits2 q) in *. set (dv := Zdigits2 v) in *.
  set (e1 := dq - 53 - (dv - 53) - 53 + t).
  assert (He1 : e1 <= 0) by (unfold e1; lia).
  rewrite Ceil_pack, ceil_int_pack by done.
  set (G := 2 ^ (- e1)).
  assert (HG : 0 < G) by (apply Z.pow_pos_nonneg; lia).
  assert (Ht0 : 0 < 2 ^ t) by (apply Z.pow_pos_nonneg; lia).
  assert (Hsv : 0 < 2 ^ (53 - dv)) by (apply Z.pow_pos_nonneg; lia).
  assert (Hscale : G * (2 ^ (53 - dv) * 2 ^ t) = 2 ^ (53 - dq) * 2 ^ 53).
  { unfold G. rewrite <- !Z.pow_add_r by lia. f_equal. unfold e1. lia. }
  assert (HvG : v < 2 * G).
  { unfold G. rewrite <- Z.pow_succ_r by lia.
    assert (2 ^ dv <= 2 ^ Z.succ (- e1)) by (apply Z.pow_le_mono_r; unfold e1; lia).
    lia. }
  assert (Hnear' : Z.abs (2 * m1 * v - 2 * q * G) <= v).
  { unfold norm in Hnear. fold dq dv in Hnear.
    set (W := 2 ^ (53 - dv) * 2 ^ t) in *.
    assert (HW : 0 < W) by (unfold W; nia).
    replace (2 * m1 * (v * 2 ^ (53 - dv)) * 2 ^ t - 2 * (q * 2 ^ (53 - dq)) * 2 ^ 53)
      with ((2 * m1 * v - 2 * q * G) * W) in Hnear by (unfold W; nia).
    replace (v * 2 ^ (53 - dv) * 2 ^ t) with (v * W) in Hnear by (unfold W; lia).
    rewrite Z.abs_mul, (Z.abs_eq W) in Hnear by lia.
    apply Z.mul_le_mono_pos_r in Hnear; done. }
  rewrite (ceil_of_nearest q v G m1) by lia.
  apply to_int_of_int.
  pose proof (Z.div_mod (- q) v ltac:(lia)).
  pose proof (Z.mod_pos_bound (- q) v ltac:(lia)). nia.
Qed.

End Float64Facts.

(** ** Properties of the slice arithmetic *)
Module SchedCacheFacts.
Import SchedCache.

Section Loop.
Context {Quantity : Type} `{QuantityOps Quantity}.
Implicit Types (quota quotaSlice : gmap string Quantity).
Implicit Types (l : list (string * Quantity)) (more : gset string).

Lemma sliceStep_ok quota more num kv :
  sliceOk quota kv = true ->
  sliceStep quota (more, num) kv
  = inr (more ∖ {[kv.1]}, Z.max num (sliceCeil quota kv)).
Proof.
  destruct kv as [k v]. unfold sliceOk, sliceStep, sliceCeil. simpl.
  destruct (quota !! k) as [q|]; [|discriminate].
  intros [Hv Hc]%andb_prop.
  apply negb_true_iff in Hv, Hc. rewrite Hv, Hc.
  f_equal. f_equal.
  destruct (Z.gtb_spec (ceilRatio q v) num); lia.
Qed.

Lemma sliceStep_fail quota more num kv :
  sliceOk quota kv = false ->
  exists e, sliceStep quota (more, num) kv = inl e.
Proof.
  destruct kv as [k v]. unfold sliceOk, sliceStep. simpl.
  destruct (quota !! k) as [q|]; [|eauto].
  destruct (Value v =? 0); [eauto|].
  destruct (Cmp q v =? -1); [eauto|discriminate].
Qed.

Lemma sliceLoop_ok quota l : forall more num,
  0 <= num ->
  forallb (sliceOk quota) l = true ->
  sliceLoop quota (more, num) l
  = inr (more ∖ list_to_set l.*1,
         Z.max num (foldr Z.max 0 (sliceCeil quota <$> l))).
Proof.
  induction l as [|kv l IH]; intros more num Hnum Hall.
  - cbn [sliceLoop fmap list_fmap foldr]. f_equal. f_equal; [|lia].
    by rewrite list_to_set_nil, difference_empty_L.
  - cbn [forallb] in Hall. apply andb_prop in Hall as [Hkv Hl].
    cbn [sliceLoop]. rewrite (sliceStep_ok _ _ _ _ Hkv).
    rewrite IH by (auto; lia).
    cbn [fmap list_fmap foldr]. f_equal. f_equal; [|lia].
    rewrite list_to_set_cons. apply difference_difference_l_L.
Qed.

Lemma sliceLoop_fail quota l : forall more num,
  forallb (sliceOk quota) l = false ->
  exists e, sliceLoop quota (more, num) l = inl e.
Proof.
  induction l as [|kv l IH]; intros more num Hall; [discriminate|].
  cbn [forallb] in Hall. cbn [sliceLoop].
  destruct (sliceOk quota kv) eqn:Hkv.
  - rewrite (sliceStep_ok _ _ _ _ Hkv). eauto.
  - destruct (sliceStep_fail quota more num kv Hkv) as [e ->]. eauto.
Qed.

Lemma keys_map_to_list quotaSlice :
  list_to_set (map_to_list quotaSlice).*1 =@{gset string} dom quotaSlice.
Proof.
  apply set_eq. intros k.
  rewrite elem_of_list_to_set, list_elem_of_fmap, elem_of_dom. split.
  - intros [[k' v] [-> Hin]]. apply elem_of_map_to_list in Hin. eauto.
  - intros [v Hv]. exists (k, v). split; [done|]. by apply elem_of_map_to_list.
Qed.

Lemma sliceOk_all quotaSlice quota :
  forallb (sliceOk quota) (map_to_list quotaSlice) = true <->
  ~ (MissingFromQuota quota quotaSlice \/ ZeroSliceDimension quotaSlice \/
     SliceLargerThanQuota quota quotaSlice).
Proof.
  rewrite forallb_forall. split.
  - intros Hall [(k & [v Hv] & Hq) | [(k & v & Hv & Hz) | (k & q & v & Hq & Hv & Hc)]];
      apply elem_of_map_to_list, list_elem_of_In, Hall in Hv;
      unfold sliceOk in Hv; simpl in Hv.
    + rewrite Hq in Hv. discriminate.
    + destruct (quota !! k); [|discriminate]. rewrite Hz in Hv. discriminate.
    + rewrite Hq, Hc in Hv. rewrite andb_comm in Hv. discriminate.
  - intros Hno [k v] Hin%list_elem_of_In%elem_of_map_to_list.
    unfold sliceOk. simpl.
    destruct (quota !! k) as [q|] eqn:Hq.
    + apply andb_true_intro. split; apply negb_true_iff, Z.eqb_neq; intros Hbad;
        apply Hno; [right; left | right; right];
        unfold ZeroSliceDimension, SliceLargerThanQuota; eauto 8.
    + exfalso. apply Hno. left. exists k. eauto.
Qed.

Lemma dom_subseteq_slices quota quotaSlice :
  dom quota ∖ dom quotaSlice =@{gset string} ∅ <->
  ~ MissingFromSlice quota quotaSlice.
Proof.
  unfold MissingFromSlice. split.
  - intros Hsub (k & Hq & Hs).
    apply elem_of_dom in Hq. apply not_elem_of_dom in Hs. set_solver.
  - intros Hno. apply set_eq. intros k. split; [|set_solver].
    intros [Hq Hs]%elem_of_difference. exfalso. apply Hno. exists k.
    split; [by apply elem_of_dom | by apply not_elem_of_dom].
Qed.

Lemma foldr_max_nonneg (l : list Z) : 0 <= foldr Z.max 0 l.
Proof. induction l; cbn; lia. Qed.

(** What [GetLeastFitSliceNum] returns when nothing fails, in whatever
    order the slice is ranged over ... *)
Lemma GetLeastFitSliceNumIn_success order quota :
  forallb (sliceOk quota) order = true ->
  dom quota ∖ list_to_set order.*1 =@{gset string} ∅ ->
  GetLeastFitSliceNumIn order quota
  = (foldr Z.max 0 (sliceCeil quota <$> order), None).
Proof.
  intros Hall Hdom. unfold GetLeastFitSliceNumIn.
  rewrite sliceLoop_ok by (auto; lia).
  rewrite Hdom, size_empty. cbn.
  f_equal. apply Z.max_r, foldr_max_nonneg.
Qed.

(** ... and when something does: zero, with an error. *)
Lemma GetLeastFitSliceNumIn_failure order quota :
  forallb (sliceOk quota) order = false \/
  dom quota ∖ list_to_set order.*1 ≠@{gset string} ∅ ->
  exists e, GetLeastFitSliceNumIn order quota = (0, Some e).
Proof.
  unfold GetLeastFitSliceNumIn.
  destruct (forallb (sliceOk quota) order) eqn:Hall.
  - intros [?|Hdom]; [discriminate|].
    rewrite sliceLoop_ok by (auto; lia).
    destruct (Nat.eqb_spec (size (dom quota ∖ list_to_set order.*1)) 0) as [Hs|Hs].
    + apply size_empty_iff in Hs. exfalso. apply Hdom. by apply leibniz_equiv.
    + cbn. eauto.
  - intros _.
    destruct (sliceLoop_fail quota _ (dom quota) 0 Hall) as [e ->]. eauto.
Qed.

Lemma GetLeastFitSliceNum_success quota quotaSlice :
  forallb (sliceOk quota) (map_to_list quotaSlice) = true ->
  dom quota ∖ dom quotaSlice =@{gset string} ∅ ->
  GetLeastFitSliceNum quota quotaSlice
  = (foldr Z.max 0 (sliceCeil quota <$> map_to_list quotaSlice), None).
Proof.
  intros Hall Hdom. apply GetLeastFitSliceNumIn_success; [done|].
  by rewrite keys_map_to_list.
Qed.

Lemma GetLeastFitSliceNum_failure quota quotaSlice :
  forallb (sliceOk quota) (map_to_list quotaSlice) = false \/
  dom quota ∖ dom quotaSlice ≠@{gset string} ∅ ->
  exists e, GetLeastFitSliceNum quota quotaSlice = (0, Some e).
Proof.
  intros Hfail. apply GetLeastFitSliceNumIn_failure.
  by rewrite keys_map_to_list.
Qed.

Lemma forallb_sliceOk_perm quota order order' :
  order ≡ₚ order' ->
  forallb (sliceOk quota) order = forallb (sliceOk quota) order'.
Proof.
  induction 1 as [|x l l' _ IH|x y l|l l' l'' _ IH1 _ IH2]; cbn [forallb];
    [done | by rewrite IH | | congruence].
  destruct (sliceOk quota x), (sliceOk quota y); reflexivity.
Qed.

Lemma foldr_max_perm quota order order' :
  order ≡ₚ order' ->
  foldr Z.max 0 (sliceCeil quota <$> order)
  = foldr Z.max 0 (sliceCeil quota <$> order').
Proof.
  induction 1 as [|x l l' _ IH|x y l|l l' l'' _ IH1 _ IH2];
    cbn [fmap list_fmap foldr]; [done | by rewrite IH | lia | congruence].
Qed.

(** X1: Go ranges over a map in an unspecified order: the number returned,
    and whether an error is returned, do not depend on it. *)
Lemma GetLeastFitSliceNumIn_order order order' quota :
  order ≡ₚ order' ->
  fst (GetLeastFitSliceNumIn order quota) = fst (GetLeastFitSliceNumIn order' quota) /\
  (snd (GetLeastFitSliceNumIn order quota) = None <->
   snd (GetLeastFitSliceNumIn order' quota) = None).
Proof.
  intros Hperm.
  pose proof (forallb_sliceOk_perm quota _ _ Hperm) as Hall.
  pose proof (foldr_max_perm quota _ _ Hperm) as Hmax.
  assert (Hkeys : list_to_set order.*1 =@{gset string} list_to_set order'.*1).
  { by rewrite Hperm. }
  destruct (forallb (sliceOk quota) order) eqn:Hok.
  - destruct (decide (dom quota ∖ list_to_set order.*1 =@{gset string} ∅)) as [Hdom|Hdom].
    + rewrite !GetLeastFitSliceNumIn_success, Hmax; try done; congruence.
    + destruct (GetLeastFitSliceNumIn_failure order quota) as [e ->]; [by right|].
      destruct (GetLeastFitSliceNumIn_failure order' quota) as [e' ->];
        [right; congruence|]. done.
  - destruct (GetLeastFitSliceNumIn_failure order quota) as [e ->]; [by left|].
    destruct (GetLeastFitSliceNumIn_failure order' quota) as [e' ->];
      [left; congruence|]. done.
Qed.

(** The result is zero whenever an error is returned. *)
Lemma GetLeastFitSliceNum_error_zero quota quotaSlice :
  snd (GetLeastFitSliceNum quota quotaSlice) <> None ->
  fst (GetLeastFitSliceNum quota quotaSlice) = 0.
Proof.
  unfold GetLeastFitSliceNum, GetLeastFitSliceNumIn.
  destruct (sliceLoop _ _ _) as [e|[more num]]; [done|].
  destruct (negb _); [done|]. cbn. congruence.
Qed.

Lemma forallb_false_witness {A} (f : A -> bool) (l : list A) :
  forallb f l = false -> exists x, x ∈ l /\ f x = false.
Proof.
  induction l as [|x l IH]; cbn; [discriminate|].
  destruct (f x) eqn:Hx; cbn.
  - intros (y & Hy & Hfy)%IH. exists y. split; [by right | done].
  - intros _. exists x. split; [by left | done].
Qed.

Lemma sliceOk_some_fails quota quotaSlice :
  forallb (sliceOk quota) (map_to_list quotaSlice) = false ->
  MissingFromQuota quota quotaSlice \/ ZeroSliceDimension quotaSlice \/
  SliceLargerThanQuota quota quotaSlice.
Proof.
  intros ([k v] & Hin%elem_of_map_to_list & Hbad)%forallb_false_witness.
  unfold sliceOk in Hbad. cbn in Hbad.
  destruct (quota !! k) as [q|] eqn:Hq.
  - apply andb_false_iff in Hbad as [Hz|Hc]; apply negb_false_iff in Hz || apply negb_false_iff in Hc.
    + right. left. exists k, v. split; [done|]. by apply Z.eqb_eq.
    + right. right. exists k, q, v. repeat split; try done. by apply Z.eqb_eq.
  - left. exists k. eauto.
Qed.

(** C4, as the code has it: [GetLeastFitSliceNum] returns an error exactly
    when a resource of the slice is missing from the quota, a slice
    dimension has value zero, a slice is larger than the quota, or (the
    check after the loop) a resource of the quota is missing from the
    slice. *)
Theorem GetLeastFitSliceNum_error_iff quota quotaSlice :
  snd (GetLeastFitSliceNum quota quotaSlice) <> None <->
  MissingFromQuota quota quotaSlice \/ ZeroSliceDimension quotaSlice \/
  SliceLargerThanQuota quota quotaSlice \/ MissingFromSlice quota quotaSlice.
Proof.
  split.
  - intros Herr.
    destruct (forallb (sliceOk quota) (map_to_list quotaSlice)) eqn:Hall.
    + destruct (decide (dom quota ∖ dom quotaSlice =@{gset string} ∅)) as [Hdom|Hdom].
      * rewrite GetLeastFitSliceNum_success in Herr by done. done.
      * apply set_choose_L in Hdom as [k [Hq Hs]%elem_of_difference].
        right. right. right. exists k.
        split; [by apply elem_of_dom | by apply not_elem_of_dom].
    + apply sliceOk_some_fails in Hall. tauto.
  - intros Hmodes.
    destruct (GetLeastFitSliceNum_failure quota quotaSlice) as [e ->]; [|done].
    destruct (forallb (sliceOk quota) (map_to_list quotaSlice)) eqn:Hall; [|by left].
    right. apply sliceOk_all in Hall. intros Hdom%dom_subseteq_slices. tauto.
Qed.

(** C9: when [GetLeastFitSliceNum] returns an error, [GetTotalSlices]
    drops it and returns 0, which is also what a namespace whose slice
    computation succeeds can return. *)
Theorem GetTotalSlices_error_discarded (n : Namespace) :
  snd (GetLeastFitSliceNum (quota n) (quotaSlice n)) <> None ->
  GetTotalSlices n = 0 /\
  exists n0 : Namespace,
    snd (GetLeastFitSliceNum (quota n0) (quotaSlice n0)) = None /\
    GetTotalSlices n0 = GetTotalSlices n.
Proof.
  intros Herr. unfold GetTotalSlices.
  rewrite (GetLeastFitSliceNum_error_zero _ _ Herr). split; [done|].
  exists (NewNamespace (owner n) (name n) (labels n) ∅ ∅ []). cbn.
  rewrite GetLeastFitSliceNum_success; [done| |set_solver].
  by rewrite map_to_list_empty.
Qed.

(** The undocumented failure mode returns an error as well. *)
Lemma GetLeastFitSliceNum_missing_from_slice quota quotaSlice :
  MissingFromSlice quota quotaSlice ->
  snd (GetLeastFitSliceNum quota quotaSlice) <> None.
Proof.
  intros Hmiss.
  destruct (GetLeastFitSliceNum_failure quota quotaSlice) as [e ->]; [|done].
  destruct (forallb (sliceOk quota) (map_to_list quotaSlice)); [|by left].
  right. intros Hdom%dom_subseteq_slices. done.
Qed.

Lemma foldr_max_ge (l : list Z) (x : Z) : x ∈ l -> x <= foldr Z.max 0 l.
Proof.
  induction 1 as [x l|x y l _ IH]; cbn [foldr]; lia.
Qed.

Lemma foldr_max_in (l : list Z) :
  l <> [] -> (forall x, x ∈ l -> 0 <= x) -> foldr Z.max 0 l ∈ l.
Proof.
  induction l as [|x l IH]; [done|]. intros _ Hpos. cbn [foldr].
  destruct l as [|y l].
  - cbn. rewrite Z.max_l; [by left|]. apply Hpos. by left.
  - destruct (Z.max_spec x (foldr Z.max 0 (y :: l))) as [[_ ->]|[_ ->]].
    + right. apply IH; [done|]. intros z Hz. apply Hpos. by right.
    + by left.
Qed.

Lemma ceilDiv_nonneg (a b : Z) : 0 <= a -> 0 < b -> 0 <= ceilDiv a b.
Proof.
  intros Ha Hb. unfold ceilDiv.
  pose proof (Z.div_mod (- a) b ltac:(lia)).
  pose proof (Z.mod_pos_bound (- a) b Hb). nia.
Qed.

(** On values below [2 ^ 53] the loop computes exact ceilings. *)
Lemma sliceCeil_exact quota (k : string) (q v : Quantity) :
  quota !! k = Some q ->
  0 <= Value q < 2 ^ 53 -> 0 < Value v < 2 ^ 53 ->
  sliceCeil quota (k, v) = ceilDiv (Value q) (Value v).
Proof.
  intros Hq Hvq Hvv. unfold sliceCeil, ceilRatio, ceilDiv. cbn [fst snd].
  rewrite Hq. by apply Float64Facts.ceil_div_exact.
Qed.


End Loop.

(** *** Concrete resource lists *)

Example GetLeastFitSliceNum_extra_quota :
  GetLeastFitSliceNum quotaCpuMem sliceCpuOnly
  = (0, Some (ErrMissingResources {[ "memory" ]})).
Proof.
  unfold GetLeastFitSliceNum, GetLeastFitSliceNumIn, sliceCpuOnly.
  rewrite map_to_list_singleton. cbn.
  replace (dom quotaCpuMem ∖ {["cpu"]}) with ({["memory"]} : gset string); [done|].
  unfold quotaCpuMem. rewrite dom_insert_L, dom_singleton_L.
  apply set_eq. intros k.
  rewrite elem_of_difference, elem_of_union, !elem_of_singleton.
  split; [intros ->; split; [auto | discriminate] | tauto].
Qed.

(** C4, as stated, fails: a quota with a resource the slice does not
    mention is rejected although none of the three listed failure modes
    holds. *)
Lemma three_failure_modes_incomplete :
  ~ (snd (GetLeastFitSliceNum quotaCpuMem sliceCpuOnly) <> None <->
     MissingFromQuota quotaCpuMem sliceCpuOnly \/
     ZeroSliceDimension sliceCpuOnly \/
     SliceLargerThanQuota quotaCpuMem sliceCpuOnly).
Proof.
  intros [Hmodes _].
  assert (Hall : forallb (sliceOk quotaCpuMem) (map_to_list sliceCpuOnly) = true).
  { unfold sliceCpuOnly. rewrite map_to_list_singleton. reflexivity. }
  apply sliceOk_all in Hall. apply Hall, Hmodes.
  rewrite GetLeastFitSliceNum_extra_quota. discriminate.
Qed.

Example float64_of_huge :
  Float64.of_int (2 ^ 53 + 1) = Float64.of_int (2 ^ 53).
Proof. vm_compute. reflexivity. Qed.

Example total_slices_huge : GetTotalSlices nsHuge = 1.
Proof. vm_compute. reflexivity. Qed.

Example total_slices_negative : GetTotalSlices nsNegative = 0.
Proof. vm_compute. reflexivity. Qed.



Example total_slices_default : GetTotalSlices nsDefault = 4.
Proof. vm_compute. reflexivity. Qed.

Lemma cpu_memory_lookup (c m : Z) (k : string) (x : Z) :
  ({[ "cpu" := c; "memory" := m ]} : gmap string Z) !! k = Some x ->
  (k = "cpu"%string /\ x = c) \/ (k = "memory"%string /\ x = m).
Proof.
  intros [[<- <-]|[_ [<- <-]%lookup_singleton_Some]]%lookup_insert_Some; auto.
Qed.


Lemma GetTotalSlices_error_discarded_witness :
  GetTotalSlices nsExtraQuota = 0 /\
  exists n0 : Namespace,
    snd (GetLeastFitSliceNum (quota n0) (quotaSlice n0)) = None /\
    GetTotalSlices n0 = GetTotalSlices nsExtraQuota.
Proof.
  apply (GetTotalSlices_error_discarded nsExtraQuota).
  vm_compute. discriminate.
Defined.

End SchedCacheFacts.

(** ** Properties of the namespace reconciler *)
Module NamespaceDWSFacts.
Import Syncer NamespaceDWS.

Section Reconcile.
Context {S : Type} (c : controller S).

Lemma append_assoc (a b d : string) :
  (a ++ (b ++ d))%string = ((a ++ b) ++ d)%string.
Proof.
  induction a as [|x a IH]; [reflexivity|].
  change (String x (a ++ (b ++ d)) = String x ((a ++ b) ++ d))%string.
  by rewrite IH.
Qed.

Lemma Contains_after (pre s sub : string) :
  Contains s sub -> Contains (pre ++ s)%string sub.
Proof.
  intros (p & q & ->). exists (pre ++ p)%string, q.
  apply append_assoc.
Qed.

Lemma existing_found {A} (a : A) : existing (inr a) = inr (Some a).
Proof. reflexivity. Qed.

Lemma existing_not_found {A} :
  existing (A := A) (inl (StatusError StatusReasonNotFound)) = inr None.
Proof. reflexivity. Qed.

(** C2: when both namespaces exist and the delegation UID stored on the
    super namespace differs from the UID of the request, the reconcile
    fails with "delegated UID is different" and leaves the super cluster
    alone: no request is sent and its state is the same. *)
Theorem update_rejects_foreign_uid (request : Request) (w : World S)
    (pNamespace vNamespace : Object) :
  nsLister c (ToSuperMasterNamespace c (ClusterName request) (ReqName request))
    = inr pNamespace ->
  mcGet c (ClusterName request) (ReqNamespace request) (ReqName request)
    = inr vNamespace ->
  annotation pNamespace (LabelUID c) <> ReqUID request ->
  exists msg,
    Reconcile c request w = ((RequeueNow, Some (Errorf msg)), w) /\
    Contains msg "delegated UID is different".
Proof.
  intros Hp Hv Huid. unfold Reconcile.
  rewrite Hp, Hv, !existing_found.
  unfold finish, reconcileNamespaceUpdate, bind.
  destruct (decide _) as [_|Heq]; [|done].
  eexists. split; [reflexivity|].
  do 2 apply Contains_after.
  by exists " exists but its "%string, ""%string.
Qed.

(** C1, as the code has it: the delete of an orphaned super namespace is
    sent once the stored delegation UID has been matched against the
    request, and its precondition is the UID of the super namespace
    itself, with the default propagation policy. *)
Theorem remove_precondition_is_super_uid (request : Request) (w : World S)
    (pNamespace : Object) :
  nsLister c (ToSuperMasterNamespace c (ClusterName request) (ReqName request))
    = inr pNamespace ->
  mcGet c (ClusterName request) (ReqNamespace request) (ReqName request)
    = inl (StatusError StatusReasonNotFound) ->
  annotation pNamespace (LabelUID c) = ReqUID request ->
  requests (snd (Reconcile c request w))
  = requests w ++
    [DeleteNamespace
       (ToSuperMasterNamespace c (ClusterName request) (ReqName request))
       {| PropagationPolicy := Some (DefaultDeletionPolicy c);
          DeletePreconditions := NewUIDPreconditions (UID pNamespace) |}].
Proof.
  intros Hp Hv Huid. unfold Reconcile.
  rewrite Hp, Hv, existing_found, existing_not_found.
  unfold finish, reconcileNamespaceRemove, bind, call.
  destruct (decide _) as [Hne|_]; [done|].
  destruct (namespaceClient c _ _) as [err s'].
  destruct (IsNotFound err); [reflexivity|].
  destruct err; reflexivity.
Qed.

(** X15: scenario S3: a delete for another UID than the delegated one is not
    sent; the reconcile fails and the super cluster is left alone. *)
Lemma remove_rejects_foreign_uid (request : Request) (w : World S)
    (pNamespace : Object) :
  nsLister c (ToSuperMasterNamespace c (ClusterName request) (ReqName request))
    = inr pNamespace ->
  mcGet c (ClusterName request) (ReqNamespace request) (ReqName request)
    = inl (StatusError StatusReasonNotFound) ->
  annotation pNamespace (LabelUID c) <> ReqUID request ->
  exists msg,
    Reconcile c request w = ((RequeueNow, Some (Errorf msg)), w) /\
    Contains msg "delegated UID is different".
Proof.
  intros Hp Hv Huid. unfold Reconcile.
  rewrite Hp, Hv, existing_found, existing_not_found.
  unfold finish, reconcileNamespaceRemove, bind.
  destruct (decide _) as [_|Heq]; [|done].
  eexists. split; [reflexivity|].
  do 2 apply Contains_after.
  by exists " "%string, " from deleted object"%string.
Qed.

(** C6: a create that the super cluster answers with AlreadyExists and a
    delete that it answers with NotFound both end the reconcile without
    an error. *)
Theorem already_exists_and_not_found_are_success (request : Request)
    (w : World S) :
  CreateAnswersAlreadyExists c request w \/ DeleteAnswersNotFound c request w ->
  fst (Reconcile c request w) = (Done, None).
Proof.
  intros [(v & [[vcName vcNs] vcUID] & newObj & s' & Hp & Hv & Ho & Hb & Hsrv)
         |(p & s' & Hp & Hv & Huid & Hsrv)]; unfold Reconcile.
  - rewrite Hp, Hv, existing_found, existing_not_found.
    unfold finish, reconcileNamespaceCreate, bind, call.
    rewrite Ho. cbn in Hb. rewrite Hb, Hsrv. reflexivity.
  - rewrite Hp, Hv, existing_found, existing_not_found.
    unfold finish, reconcileNamespaceRemove, bind, call.
    destruct (decide _) as [Hne|_]; [done|].
    rewrite Hsrv. reflexivity.
Qed.

End Reconcile.

(** *** Concrete reconciles *)

Example orphan_delete_request :
  requests (snd (Reconcile ctlOrphan request1 (worldOf (superOf pNs1))))
  = [DeleteNamespace "cluster1-ns1"
       {| PropagationPolicy := Some Background;
          DeletePreconditions := Some {| PreconditionUID := Some "p-uid-1" |} |}].
Proof. vm_compute. reflexivity. Qed.

(** C1, as stated, fails: the precondition of the delete is the UID of
    the super namespace ("p-uid-1"), not the delegation UID stored in its
    annotation ("v-uid-1"). *)
Lemma remove_precondition_is_not_delegation_uid :
  ~ DeleteCarriesDelegationUID ctlOrphan request1 (worldOf (superOf pNs1)).
Proof.
  intros Hclaim.
  specialize (Hclaim pNs1 eq_refl eq_refl eq_refl).
  rewrite orphan_delete_request in Hclaim.
  vm_compute in Hclaim. discriminate Hclaim.
Qed.

Lemma remove_precondition_is_super_uid_witness :
  requests (snd (Reconcile ctlOrphan request1 (worldOf (superOf pNs1))))
  = [] ++
    [DeleteNamespace "cluster1-ns1"
       {| PropagationPolicy := Some Background;
          DeletePreconditions := NewUIDPreconditions "p-uid-1" |}].
Proof.
  apply (remove_precondition_is_super_uid ctlOrphan request1
           (worldOf (superOf pNs1)) pNs1); reflexivity.
Defined.

Lemma update_rejects_foreign_uid_witness :
  exists msg,
    Reconcile ctlForeign request1 (worldOf (superOf pForeign))
    = ((RequeueNow, Some (Errorf msg)), worldOf (superOf pForeign)) /\
    Contains msg "delegated UID is different".
Proof.
  apply (update_rejects_foreign_uid ctlForeign request1
           (worldOf (superOf pForeign)) pForeign vNs1);
    [reflexivity | reflexivity | vm_compute; discriminate].
Defined.

Lemma already_exists_and_not_found_are_success_witness :
  fst (Reconcile ctlFresh request1 (worldOf (superOf pNs1))) = (Done, None) /\
  fst (Reconcile ctlOrphan request1 (worldOf ∅)) = (Done, None).
Proof.
  split.
  - apply (already_exists_and_not_found_are_success ctlFresh request1
             (worldOf (superOf pNs1))).
    left. exists vNs1, ("cluster1", "default", "vc-uid")%string.
    exists {| Name := "cluster1-ns1"; Namespace := ""; UID := ""; Labels := ∅;
              Annotations := <["tenancy.x-k8s.io/uid" := "v-uid-1"]> ∅;
              Rest := "" |}.
    exists (superOf pNs1). repeat split; reflexivity.
  - apply (already_exists_and_not_found_are_success ctlOrphan request1
             (worldOf ∅)).
    right. exists pNs1, ∅. repeat split; reflexivity.
Defined.

End NamespaceDWSFacts.

(** ** Properties of the service patroller *)
Module ServicePatrolFacts.
Import Syncer ServicePatrol.

Section Patrol.
Context {S : Type} (c : controller S).

(** The requests of the second loop: one delete per service the loop
    decides to delete, in the order of the list. *)
Lemma deleteOrphans_requests (pServices : list Object) :
  forall (deleted : nat) (w : World S),
    requests (snd (deleteOrphans c pServices deleted w))
    = requests w ++
      (orphanDelete <$> filter (fun p => shouldDelete c p = Some true) pServices).
Proof.
  induction pServices as [|p l IH]; intros deleted w.
  - cbn. by rewrite app_nil_r.
  - cbn [deleteOrphans]. rewrite filter_cons.
    destruct (decide (shouldDelete c p = Some true)) as [Hp|Hp].
    + rewrite Hp. unfold bind, call.
      destruct (serviceClient c _ (server w)) as [err s'].
      rewrite IH. cbn. by rewrite <- app_assoc.
    + destruct (shouldDelete c p) as [[|]|]; [done | apply IH | apply IH].
Qed.

Lemma length_zero_iff (s : string) : Nat.eqb (String.length s) 0 = true <-> s = ""%string.
Proof. destruct s; cbn; split; (done || discriminate). Qed.

Lemma shouldDelete_true_iff (p : Object) :
  shouldDelete c p = Some true <-> Owned c p /\ Orphaned c p.
Proof.
  unfold shouldDelete, Owned, Orphaned.
  destruct (GetVirtualOwner c p) as [cl ns]. cbn [fst snd].
  destruct (Nat.eqb (String.length cl) 0) eqn:Hcl.
  { apply length_zero_iff in Hcl. cbn. split; [done | intros [[? _] _]; done]. }
  destruct (Nat.eqb (String.length ns) 0) eqn:Hns.
  { apply length_zero_iff in Hns. cbn. split; [done | intros [[_ ?] _]; done]. }
  cbn [orb].
  assert (Hown : cl <> ""%string /\ ns <> ""%string).
  { split; intros Heq; apply length_zero_iff in Heq; congruence. }
  destruct (mcGet c cl ns (Name p)) as [err|v].
  - split.
    + intros [= Hnf]. split; [done|]. left.
      destruct err as [[| | |]|]; try discriminate. done.
    + intros [_ [[= ->]|(v & [=] & _)]]. done.
  - split.
    + intros [= Hne%bool_decide_eq_true]. split; [done|]. right. eauto.
    + intros [_ [[=]|(v' & [= <-] & Hne)]]. f_equal. by apply bool_decide_eq_true.
Qed.

Lemma Intact_not_Orphaned (p : Object) : Intact c p -> ~ Orphaned c p.
Proof.
  unfold Intact, Orphaned. destruct (GetVirtualOwner c p) as [cl ns].
  intros (v & Hv & Huid) [Hnf|(v' & Hv' & Hne)]; congruence.
Qed.

Lemma PatrollerDo_requests (w : World S) (pServices : list Object) :
  GetClusterNames c <> [] ->
  serviceListerList c = inr pServices ->
  requests (snd (PatrollerDo c w))
  = requests w ++
    (orphanDelete <$> filter (fun p => shouldDelete c p = Some true) pServices).
Proof.
  intros Hcl Hlist. unfold PatrollerDo.
  destruct (GetClusterNames c) as [|cl cls]; [done|].
  rewrite Hlist. unfold bind.
  rewrite <- (deleteOrphans_requests pServices 0 w).
  by destruct (deleteOrphans c pServices 0 w).
Qed.

(** C8, as the code has it: in a pass that has a tenant cluster to check
    and that gets the list of super services, the requests sent to the
    super cluster are deletes with a UID precondition, one for every owned
    super service whose tenant counterpart is not found or has another
    UID, and for no other service; a service whose pair is intact is not
    deleted. *)
Theorem patrol_deletes_orphans_only (w : World S) (pServices : list Object) :
  GetClusterNames c <> [] ->
  serviceListerList c = inr pServices ->
  exists deletes,
    requests (snd (PatrollerDo c w)) = requests w ++ deletes /\
    (forall p, p ∈ pServices -> Owned c p -> Orphaned c p ->
               orphanDelete p ∈ deletes) /\
    (forall r, r ∈ deletes ->
               exists p, p ∈ pServices /\ Owned c p /\ Orphaned c p /\
                         r = orphanDelete p) /\
    (forall p, p ∈ pServices -> Intact c p ->
               (forall p', p' ∈ pServices -> Namespace p' = Namespace p ->
                           Name p' = Name p -> p' = p) ->
               forall opts, DeleteService (Namespace p) (Name p) opts ∉ deletes).
Proof.
  intros Hcl Hlist. eexists. split; [by apply PatrollerDo_requests|].
  assert (Hin : forall r,
    r ∈ orphanDelete <$> filter (fun p => shouldDelete c p = Some true) pServices ->
    exists p, p ∈ pServices /\ Owned c p /\ Orphaned c p /\ r = orphanDelete p).
  { intros r (p & -> & [Hd Hp]%list_elem_of_filter)%list_elem_of_fmap.
    apply shouldDelete_true_iff in Hd as [Hown Horph]. eauto. }
  split; [|split; [exact Hin|]].
  - intros p Hp Hown Horph. apply list_elem_of_fmap. exists p. split; [done|].
    apply list_elem_of_filter. split; [|done]. by apply shouldDelete_true_iff.
  - intros p Hp Hintact Hkey opts (p' & Hp' & _ & Horph & Heq)%Hin.
    injection Heq as Hns Hnm _.
    rewrite (Hkey p' Hp' (eq_sym Hns) (eq_sym Hnm)) in Horph.
    by apply Intact_not_Orphaned in Hintact.
Qed.

End Patrol.

(** *** Concrete passes *)

Example patrol_with_cluster :
  requests (snd (PatrollerDo (fakePatrol ["cluster1"%string]) idle))
  = [DeleteService "cluster1-default" "web"
       (NewPreconditionDeleteOptions "p-uid-web")].
Proof. vm_compute. reflexivity. Qed.

Example patrol_without_cluster :
  PatrollerDo (fakePatrol []) idle = (None, idle).
Proof. reflexivity. Qed.

(** C8, as stated, fails: with no tenant cluster joined the pass gives up
    at once, and the orphaned super service [web] is not deleted. *)
Lemma patrol_gives_up_without_clusters :
  ~ PatrolDeletesOrphans (fakePatrol []) idle.
Proof.
  intros Hclaim.
  assert (Hin : orphanDelete pWeb ∈ requests (snd (PatrollerDo (fakePatrol []) idle))).
  { apply (Hclaim [pWeb; pDb] pWeb); [reflexivity | by left | | ].
    - split; vm_compute; discriminate.
    - left. reflexivity. }
  rewrite patrol_without_cluster in Hin. by apply elem_of_nil in Hin.
Qed.

Lemma patrol_deletes_orphans_only_witness :
  exists deletes,
    requests (snd (PatrollerDo (fakePatrol ["cluster1"%string]) idle))
    = requests idle ++ deletes /\
    (forall p, p ∈ [pWeb; pDb] -> Owned (fakePatrol ["cluster1"%string]) p ->
               Orphaned (fakePatrol ["cluster1"%string]) p ->
               orphanDelete p ∈ deletes) /\
    (forall r, r ∈ deletes ->
               exists p, p ∈ [pWeb; pDb] /\
                         Owned (fakePatrol ["cluster1"%string]) p /\
                         Orphaned (fakePatrol ["cluster1"%string]) p /\
                         r = orphanDelete p) /\
    (forall p, p ∈ [pWeb; pDb] -> Intact (fakePatrol ["cluster1"%string]) p ->
               (forall p', p' ∈ [pWeb; pDb] -> Namespace p' = Namespace p ->
                           Name p' = Name p -> p' = p) ->
               forall opts, DeleteService (Namespace p) (Name p) opts ∉ deletes).
Proof.
  apply (patrol_deletes_orphans_only (fakePatrol ["cluster1"%string]) idle
           [pWeb; pDb]); [discriminate | reflexivity].
Defined.

End ServicePatrolFacts.

(** ** Properties of the object validator *)
Module ObjectValidatorFacts.
Import ObjectValidator.

Section Validator.
Context {Canon : Type} `{EqDecision Canon} (o : Object Canon).

Lemma GetLabel_found (inst : Unstructured) (label : string) :
  (GetLabel inst label).2 = true <-> is_Some (objLabels inst !! label).
Proof.
  unfold GetLabel. destruct (objLabels inst !! label); cbn.
  - split; eauto.
  - split; [discriminate | intros [? [=]]].
Qed.

(** [handle] sends every object that was or is inherited to
    [handleInherited], with the two values of the label. *)
Lemma handle_inherited (op : Operation) (inst oldInst : Unstructured) :
  Inherited o inst \/ Inherited o oldInst ->
  handle o op inst oldInst
  = handleInherited o op (GetLabel inst (LabelInheritedFrom o)).1
      (GetLabel oldInst (LabelInheritedFrom o)).1 inst oldInst.
Proof.
  unfold Inherited, handle. rewrite <- !GetLabel_found.
  destruct (GetLabel oldInst _) as [oldSource [|]],
           (GetLabel inst _) as [newSource [|]]; cbn; try done.
  intros [[=]|[=]].
Qed.


(** Past the three early exits, a request of a user reaches [handle]. *)
Lemma Handle_reaches_handle (req : AdmissionRequest) (inst oldInst : Unstructured) :
  EX o (ReqNamespace req) = false ->
  isPropagateType o (ReqKind req) = true ->
  UserRequest o req inst oldInst ->
  Handle o req = handle o (ReqOperation req) inst oldInst.
Proof.
  intros Hex Hprop [Hsa Hdec]. unfold Handle. rewrite Hex, Hprop, Hsa. cbn.
  destruct (ReqOperation req); cbn.
  - destruct Hdec as [-> ->]. reflexivity.
  - destruct Hdec as [-> ->]. reflexivity.
  - destruct Hdec as (-> & Hraw & ->).
    by rewrite (bool_decide_eq_true_2 _ Hraw).
  - destruct Hdec as [-> ->]. reflexivity.
Qed.



(** C10: a user's update of an object carrying the label is allowed when
    the value of the label and the canonical form are what they were. *)
Theorem unchanged_update_allowed (req : AdmissionRequest)
    (inst oldInst : Unstructured) :
  ReqOperation req = Update ->
  UserRequest o req inst oldInst ->
  Inherited o inst \/ Inherited o oldInst ->
  (GetLabel inst (LabelInheritedFrom o)).1
    = (GetLabel oldInst (LabelInheritedFrom o)).1 ->
  Canonical o inst = Canonical o oldInst ->
  Allowed (Handle o req) = true.
Proof.
  intros Hop Huser Hin Hlabel Hcanon.
  destruct (EX o (ReqNamespace req)) eqn:Hex.
  { unfold Handle. by rewrite Hex. }
  destruct (isPropagateType o (ReqKind req)) eqn:Hprop.
  2: { unfold Handle. by rewrite Hex, Hprop. }
  rewrite (Handle_reaches_handle req inst oldInst Hex Hprop Huser).
  rewrite Hop, handle_inherited by done. cbn.
  destruct (decide _) as [Hne|_]; [done|].
  destruct (decide _) as [Hne|_]; [done|]. reflexivity.
Qed.

End Validator.

(** *** Concrete requests *)


Example create_in_child :
  Allowed (Handle validator (request "child" Create (Some "new"%string) None))
  = false.
Proof. vm_compute. reflexivity. Qed.



Lemma unchanged_update_allowed_witness :
  Allowed (Handle validator
             (request "child" Update (Some "new"%string) (Some "old"%string)))
  = true.
Proof.
  apply (unchanged_update_allowed validator
           (request "child" Update (Some "new"%string) (Some "old"%string))
           (propagated "child" "ready") (propagated "child" "pending"));
    [reflexivity
    | split; [reflexivity | split; reflexivity]
    | left; exists "parent"%string; reflexivity
    | reflexivity
    | reflexivity].
Defined.

End ObjectValidatorFacts.

(** ** Properties of the cluster of the scheduler cache *)
Module ClusterFacts.
Import SchedCache.

Section Cluster.
Context {Quantity : Type} `{QuantityOps Quantity}.

(** C5: when [AddNamespace] returns an error, [alloc] and [allocItems]
    are what they were; adding a namespace that is already present is
    such an error. *)
Theorem AddNamespace_error_leaves_state (c : Cluster) (ns : string)
    (slices : list Slice) :
  fst (AddNamespace c ns slices) <> None \/ is_Some (allocItems c !! ns) ->
  fst (AddNamespace c ns slices) <> None /\
  alloc (snd (AddNamespace c ns slices)) = alloc c /\
  allocItems (snd (AddNamespace c ns slices)) = allocItems c.
Proof.
  unfold AddNamespace. intros Herr.
  destruct (allocItems c !! ns) as [present|] eqn:Hns; [done|].
  destruct (foldl _ _ slices) as [e|alloc']; [done|].
  destruct Herr as [Herr|[? [=]]]. done.
Qed.

(** Errors are sticky in both folds. *)
Lemma addResource_error capacity e (l : list (string * Quantity)) :
  foldl (addResource capacity) (inl e) l = inl e.
Proof. induction l; cbn; auto. Qed.

Lemma addSlice_error name capacity e (l : list Slice) :
  foldl (addSlice name capacity) (inl e) l = inl e.
Proof. induction l; cbn; auto. Qed.

(** A slice of another cluster makes the whole add fail. *)
Lemma AddNamespace_wrong_cluster (c : Cluster) (ns : string)
    (slices : list Slice) (s : Slice) :
  s ∈ slices -> sliceCluster s <> clusterName c ->
  fst (AddNamespace c ns slices) <> None.
Proof.
  intros Hin Hne. unfold AddNamespace.
  destruct (allocItems c !! ns); [done|].
  assert (Hfail : forall acc, exists e,
            foldl (addSlice (clusterName c) (capacity c)) acc slices = inl e).
  { induction Hin as [s l|s s' l Hin IH]; intros acc; cbn [foldl].
    - destruct acc as [e|a]; cbn.
      + rewrite addSlice_error. eauto.
      + destruct (decide _); [done|]. rewrite addSlice_error. eauto.
    - by apply IH. }
  destruct (Hfail (inr (alloc c))) as [e ->]. done.
Qed.

End Cluster.

(** *** The cases of [TestAddNamespace] *)

Example add_two_slices :
  let r := addTo testCluster (replicate 2 (slice defaultQuotaSlice "testcluster")) in
  succeeds r = true /\
  Equals (resources (1000 * mega) (2 * gibi)) (alloc (snd r)) = true.
Proof. vm_compute. split; reflexivity. Qed.

Example add_over_memory :
  let r := addTo testCluster [slice overMemQuotaSlice "testcluster"] in
  succeeds r = false /\ Equals (resources 0 0) (alloc (snd r)) = true.
Proof. vm_compute. split; reflexivity. Qed.

(** Scenario S5: five slices do not fit, and nothing is allocated. *)
Example add_five_slices :
  let r := addTo testCluster (replicate 5 (slice defaultQuotaSlice "testcluster")) in
  succeeds r = false /\ Equals (resources 0 0) (alloc (snd r)) = true.
Proof. vm_compute. split; reflexivity. Qed.

Example add_wrong_cluster :
  let r := addTo testCluster [slice defaultQuotaSlice "testcluster1"] in
  succeeds r = false /\ Equals (resources 0 0) (alloc (snd r)) = true.
Proof. vm_compute. split; reflexivity. Qed.

Example add_unknown_resource :
  let r := addTo testCluster [slice unknownSlice "testcluster"] in
  succeeds r = false /\ Equals (resources 0 0) (alloc (snd r)) = true.
Proof. vm_compute. split; reflexivity. Qed.

Example add_twice :
  let once := snd (addTo testCluster [slice defaultQuotaSlice "testcluster"]) in
  let r := addTo once [slice defaultQuotaSlice "testcluster"] in
  succeeds r = false /\
  Equals (resources (500 * mega) (1 * gibi)) (alloc (snd r)) = true.
Proof. vm_compute. split; reflexivity. Qed.

Lemma AddNamespace_error_leaves_state_witness :
  let c := testCluster in
  let slices := replicate 5 (slice defaultQuotaSlice "testcluster") in
  fst (AddNamespace c "testnamespace" slices) <> None /\
  alloc (snd (AddNamespace c "testnamespace" slices)) = alloc c /\
  allocItems (snd (AddNamespace c "testnamespace" slices)) = allocItems c.
Proof.
  apply (AddNamespace_error_leaves_state testCluster "testnamespace"
           (replicate 5 (slice defaultQuotaSlice "testcluster"))).
  left. vm_compute. discriminate.
Defined.

End ClusterFacts.

(** ** Further properties of the scheduler cache's namespaces *)
Module SchedCacheMore.
Import SchedCache SchedCacheFacts.

Section Namespaces.
Context {Quantity : Type} `{QuantityOps Quantity}.
Implicit Types (quota quotaSlice : gmap string Quantity).

(** X2: on values below [2 ^ 53] the float computation of the loop body,
    [int(math.Ceil(float64(q.Value()) / float64(v.Value())))], is the
    exact integer ceiling of the quotient. *)
Theorem ceilRatio_is_exact (q v : Quantity) :
  0 <= Value q < 2 ^ 53 -> 0 < Value v < 2 ^ 53 ->
  ceilRatio q v = ceilDiv (Value q) (Value v).
Proof.
  intros Hq Hv. unfold ceilRatio, ceilDiv.
  by apply Float64Facts.ceil_div_exact.
Qed.

Lemma ceilDiv_bounds (a b : Z) :
  0 < b -> (ceilDiv a b - 1) * b < a <= ceilDiv a b * b.
Proof.
  intros Hb. unfold ceilDiv.
  pose proof (Z.div_mod (- a) b ltac:(lia)).
  pose proof (Z.mod_pos_bound (- a) b Hb). nia.
Qed.

(** A successful [GetLeastFitSliceNum] went through every entry of the
    slice without failing and found no quota resource left over. *)
Lemma success_inv quota quotaSlice (n : Z) :
  GetLeastFitSliceNum quota quotaSlice = (n, None) ->
  forallb (sliceOk quota) (map_to_list quotaSlice) = true /\
  dom quota ∖ dom quotaSlice =@{gset string} ∅.
Proof.
  intros Hok.
  destruct (forallb (sliceOk quota) (map_to_list quotaSlice)) eqn:Hall.
  - split; [done|].
    destruct (decide (dom quota ∖ dom quotaSlice =@{gset string} ∅)) as [|Hne]; [done|].
    destruct (GetLeastFitSliceNum_failure quota quotaSlice) as [e He]; [by right|].
    congruence.
  - destruct (GetLeastFitSliceNum_failure quota quotaSlice) as [e He]; [by left|].
    congruence.
Qed.

(** X3: the number returned deserves its name: with values in the exact
    range, that many slices cover the quota in every resource, and one
    slice less does not. *)
Theorem GetLeastFitSliceNum_least_fit quota quotaSlice (n : Z) :
  GetLeastFitSliceNum quota quotaSlice = (n, None) ->
  (forall k q, quota !! k = Some q -> 0 <= Value q < 2 ^ 53) ->
  (forall k v, quotaSlice !! k = Some v -> 0 < Value v < 2 ^ 53) ->
  0 <= n /\ Covers quota quotaSlice n /\
  (quotaSlice <> ∅ -> ~ Covers quota quotaSlice (n - 1)).
Proof.
  intros Hok Hq Hv.
  destruct (success_inv _ _ _ Hok) as [Hall Hdom].
  rewrite GetLeastFitSliceNum_success in Hok by done.
  injection Hok as <-.
  set (l := sliceCeil quota <$> map_to_list quotaSlice).
  assert (Hquota : forall k v, quotaSlice !! k = Some v -> is_Some (quota !! k)).
  { intros k v Hkv.
    apply elem_of_map_to_list, list_elem_of_In in Hkv.
    rewrite forallb_forall in Hall. apply Hall in Hkv.
    unfold sliceOk in Hkv. cbn in Hkv. by destruct (quota !! k). }
  assert (Hexact : forall k q v, quota !! k = Some q -> quotaSlice !! k = Some v ->
                     sliceCeil quota (k, v) = ceilDiv (Value q) (Value v)).
  { intros k q v Hkq Hkv. apply sliceCeil_exact; eauto. }
  split; [apply foldr_max_nonneg|]. split.
  - intros k q v Hkq Hkv.
    assert (ceilDiv (Value q) (Value v) <= foldr Z.max 0 l).
    { rewrite <- (Hexact k q v Hkq Hkv).
      apply foldr_max_ge, list_elem_of_fmap. exists (k, v).
      split; [done|]. by apply elem_of_map_to_list. }
    pose proof (ceilDiv_bounds (Value q) (Value v)).
    pose proof (Hv k v Hkv). nia.
  - intros Hne Hcover.
    assert (Hin : foldr Z.max 0 l ∈ l).
    { apply foldr_max_in.
      - unfold l. intros Hnil%fmap_nil_inv. by apply map_to_list_empty_iff in Hnil.
      - intros x ([k v] & -> & Hkv%elem_of_map_to_list)%list_elem_of_fmap.
        destruct (Hquota k v Hkv) as [q Hkq]. rewrite (Hexact k q v Hkq Hkv).
        apply ceilDiv_nonneg; [apply (Hq k q Hkq) | apply (Hv k v Hkv)]. }
    apply list_elem_of_fmap in Hin as ([k v] & Heq & Hkv%elem_of_map_to_list).
    destruct (Hquota k v Hkv) as [q Hkq].
    rewrite (Hexact k q v Hkq Hkv) in Heq.
    pose proof (ceilDiv_bounds (Value q) (Value v)).
    pose proof (Hv k v Hkv). pose proof (Hcover k q v Hkq Hkv). nia.
Qed.

Lemma Equals_spec (a b : gmap string Quantity) :
  Equals a b = true <->
  dom a = dom b /\
  (forall k va vb, a !! k = Some va -> b !! k = Some vb -> Cmp va vb = 0).
Proof.
  unfold Equals. rewrite andb_true_iff, Nat.eqb_eq, forallb_forall. split.
  - intros [Hsize Hall].
    assert (Hsub : dom a ⊆ dom b).
    { intros k [va Hva]%elem_of_dom.
      apply elem_of_map_to_list, list_elem_of_In, Hall in Hva. cbn in Hva.
      apply elem_of_dom. destruct (b !! k); [eauto|discriminate]. }
    split.
    + apply leibniz_equiv, set_subseteq_size_equiv; [done|].
      rewrite !size_dom. lia.
    + intros k va vb Hva Hvb.
      apply elem_of_map_to_list, list_elem_of_In, Hall in Hva. cbn in Hva.
      rewrite Hvb in Hva. by apply Z.eqb_eq.
  - intros [Hdom Hcmp]. split.
    + by rewrite <- !size_dom, Hdom.
    + intros [k va] Hva%list_elem_of_In%elem_of_map_to_list. cbn.
      assert (is_Some (b !! k)) as [vb Hvb].
      { apply elem_of_dom. rewrite <- Hdom. apply elem_of_dom. eauto. }
      rewrite Hvb. apply Z.eqb_eq. eauto.
Qed.

(** X4: [Equals] holds exactly for two lists over the same resources whose
    quantities compare equal resource by resource: the test on the
    lengths and the lookup of every key of the first list in the second
    rule out a resource that only the second list has. *)
Theorem Equals_iff (a b : gmap string Quantity) :
  Equals a b = true <->
  dom a = dom b /\
  (forall k va vb, a !! k = Some va -> b !! k = Some vb -> Cmp va vb = 0).
Proof. apply Equals_spec. Qed.

(** X5: [Comparable] does not depend on which of the two namespaces is asked,
    as long as [Cmp] agrees with itself on equal quantities. *)
Theorem Comparable_sym (n other : @Namespace Quantity) :
  (forall x y : Quantity, Cmp x y = 0 -> Cmp y x = 0) ->
  Comparable n other = Comparable other n.
Proof.
  intros Hsym. unfold Comparable, GetQuotaSlice.
  apply eq_true_iff_eq. rewrite !Equals_spec. split.
  - intros [Hdom Hcmp]. split; [done|]. intros k va vb Hva Hvb. eauto.
  - intros [Hdom Hcmp]. split; [done|]. intros k va vb Hva Hvb. eauto.
Qed.

Lemma placements_of_order (order : list (string * Z)) (start : list Placement) :
  foldl (fun sched kv => sched ++ [NewPlacement kv.1 kv.2]) start order
  = start ++ ((fun kv => NewPlacement kv.1 kv.2) <$> order).
Proof.
  revert start. induction order as [|kv order IH]; intros start; cbn [foldl].
  - by rewrite app_nil_r.
  - rewrite IH, <- app_assoc. reflexivity.
Qed.

Lemma placement_map_of_order (order : list (string * Z)) :
  NoDup order.*1 ->
  foldl (fun m each => <[cluster each := num each]> m) (∅ : gmap string Z)
    ((fun kv => NewPlacement kv.1 kv.2) <$> order)
  = list_to_map order.
Proof.
  induction order as [|[k x] order IH] using rev_ind; [done|].
  rewrite !fmap_app. cbn [fmap list_fmap]. rewrite NoDup_app.
  intros (Hnodup & Hfresh & _).
  rewrite foldl_snoc, IH by done. cbn [cluster num fst snd].
  rewrite list_to_map_snoc; [done|].
  intros Hin. apply (Hfresh k Hin). by left.
Qed.

(** X6: what [SetNewPlacements] stores is what [GetPlacementMap] reads back,
    whatever the order in which the map of placements is ranged over;
    the earlier schedule is gone. *)
Theorem GetPlacementMap_SetNewPlacements (order : list (string * Z))
    (p : gmap string Z) (n : @Namespace Quantity) :
  order ≡ₚ map_to_list p ->
  GetPlacementMap (SetNewPlacementsIn order n) = p.
Proof.
  intros Hperm. unfold GetPlacementMap, SetNewPlacementsIn. cbn [schedule].
  rewrite placements_of_order, app_nil_l.
  assert (Hnodup : NoDup order.*1).
  { rewrite Hperm. apply NoDup_fst_map_to_list. }
  rewrite placement_map_of_order by done.
  rewrite (list_to_map_proper order (map_to_list p)) by done.
  apply list_to_map_to_list.
Qed.

(** X7: in a schedule that names a cluster more than once, the last placement
    of the cluster is the one [GetPlacementMap] keeps. *)
Theorem GetPlacementMap_lookup (n : @Namespace Quantity) (c : string) :
  GetPlacementMap n !! c
  = num <$> last (filter (fun each => cluster each = c) (schedule n)).
Proof.
  unfold GetPlacementMap.
  induction (schedule n) as [|each sched IH] using rev_ind; [done|].
  rewrite foldl_snoc, filter_app, last_app.
  destruct (decide (cluster each = c)) as [<-|Hne].
  - rewrite lookup_insert_eq.
    rewrite (filter_cons_True _ each []) by done. reflexivity.
  - rewrite lookup_insert_ne by done.
    rewrite (filter_cons_False _ each []) by done. cbn. apply IH.
Qed.

Lemma append_cons (a : Ascii.ascii) (s t : string) :
  (String a s ++ t)%string = String a (s ++ t)%string.
Proof. reflexivity. Qed.

Lemma key_split (o1 o2 n1 n2 : string) :
  hasSlash o1 = false -> hasSlash o2 = false ->
  (o1 ++ "/" ++ n1)%string = (o2 ++ "/" ++ n2)%string ->
  o1 = o2 /\ n1 = n2.
Proof.
  revert o2. induction o1 as [|a o1 IH]; intros [|b o2] H1 H2 Heq.
  - change (String (Ascii.ascii_of_nat 47) n1 = String (Ascii.ascii_of_nat 47) n2) in Heq.
    injection Heq as ->. done.
  - change (String (Ascii.ascii_of_nat 47) n1 = String b (o2 ++ "/" ++ n2)%string) in Heq.
    injection Heq as <- _. cbn in H2. discriminate.
  - change (String a (o1 ++ "/" ++ n1)%string = String (Ascii.ascii_of_nat 47) n2) in Heq.
    injection Heq as -> _. cbn in H1. discriminate.
  - rewrite !append_cons in Heq. injection Heq as -> Heq.
    cbn in H1, H2. apply orb_false_iff in H1 as [_ H1], H2 as [_ H2].
    destruct (IH o2 H1 H2 Heq) as [-> ->]. done.
Qed.

(** X8: two namespaces whose owners have no slash in their names have the
    same key only if they have the same owner and the same name. *)
Theorem GetKey_inj (n1 n2 : @Namespace Quantity) :
  hasSlash (owner n1) = false -> hasSlash (owner n2) = false ->
  GetKey n1 = GetKey n2 ->
  owner n1 = owner n2 /\ name n1 = name n2.
Proof. intros H1 H2 Hkey. by apply key_split. Qed.

End Namespaces.

Lemma GetLeastFitSliceNumIn_order_witness :
  fst (GetLeastFitSliceNumIn (reverse (map_to_list (quotaSlice nsDefault)))
         (quota nsDefault))
    = fst (GetLeastFitSliceNumIn (map_to_list (quotaSlice nsDefault))
             (quota nsDefault)) /\
  (snd (GetLeastFitSliceNumIn (reverse (map_to_list (quotaSlice nsDefault)))
          (quota nsDefault)) = None <->
   snd (GetLeastFitSliceNumIn (map_to_list (quotaSlice nsDefault))
          (quota nsDefault)) = None).
Proof.
  apply (GetLeastFitSliceNumIn_order
           (reverse (map_to_list (quotaSlice nsDefault)))
           (map_to_list (quotaSlice nsDefault)) (quota nsDefault)).
  apply reverse_Permutation.
Defined.

Lemma ceilRatio_is_exact_witness :
  @ceilRatio Z _ 7 2 = ceilDiv (@Value Z _ 7) (@Value Z _ 2).
Proof. apply (@ceilRatio_is_exact Z _ 7 2); cbn; lia. Defined.

Lemma GetLeastFitSliceNum_least_fit_witness :
  0 <= 4 /\ Covers (quota nsDefault) (quotaSlice nsDefault) 4 /\
  (quotaSlice nsDefault <> ∅ ->
   ~ Covers (quota nsDefault) (quotaSlice nsDefault) (4 - 1)).
Proof.
  apply (GetLeastFitSliceNum_least_fit (quota nsDefault) (quotaSlice nsDefault) 4).
  - vm_compute. reflexivity.
  - intros k q [[_ ->]|[_ ->]]%cpu_memory_lookup; cbn; lia.
  - intros k v [[_ ->]|[_ ->]]%cpu_memory_lookup; cbn; lia.
Defined.

Lemma Comparable_sym_witness :
  Comparable nsDefault nsExtraQuota = Comparable nsExtraQuota nsDefault.
Proof.
  apply (Comparable_sym nsDefault nsExtraQuota).
  intros x y. cbn. destruct (Z.compare_spec x y), (Z.compare_spec y x); lia.
Defined.

Lemma GetPlacementMap_SetNewPlacements_witness :
  GetPlacementMap
    (SetNewPlacementsIn
       (reverse (map_to_list ({[ "c1" := 2; "c2" := 3 ]} : gmap string Z)))
       nsDefault)
  = {[ "c1" := 2; "c2" := 3 ]}.
Proof.
  apply (GetPlacementMap_SetNewPlacements
           (reverse (map_to_list ({[ "c1" := 2; "c2" := 3 ]} : gmap string Z)))
           {[ "c1" := 2; "c2" := 3 ]} nsDefault).
  apply reverse_Permutation.
Defined.

Lemma GetKey_inj_witness :
  owner nsDefault = owner (NewNamespace "tenant" "default" ∅ (∅ : gmap string Z) ∅ []) /\
  name nsDefault = name (NewNamespace "tenant" "default" ∅ (∅ : gmap string Z) ∅ []).
Proof.
  apply (GetKey_inj nsDefault
           (NewNamespace "tenant" "default" ∅ (∅ : gmap string Z) ∅ []));
    reflexivity.
Defined.

(** With a slash in an owner two different namespaces can share a key. *)
Example GetKey_collision :
  GetKey (NewNamespace "a/b" "c" ∅ (∅ : gmap string Z) ∅ [])
  = GetKey (NewNamespace "a" "b/c" ∅ (∅ : gmap string Z) ∅ []).
Proof. reflexivity. Qed.

End SchedCacheMore.

(** ** Further properties of the namespace reconciler *)
Module NamespaceDWSMore.
Import Syncer NamespaceDWS.

Section Reconcile.
Context {S : Type} (c : controller S).

(** Every path of [Reconcile], with the server's answer taken apart. *)
Ltac reconcile_paths :=
  unfold Reconcile, finish, reconcileNamespaceCreate, reconcileNamespaceUpdate,
    reconcileNamespaceRemove, bind, call, ret;
  repeat match goal with
    | |- context [existing ?r] => destruct (existing r) as [?|[?|]]
    | |- context [GetOwnerInfo c ?x] => destruct (GetOwnerInfo c x) as [?|[[? ?] ?]]
    | |- context [BuildSuperMasterNamespace c ?a ?b ?d ?e ?f] =>
        destruct (BuildSuperMasterNamespace c a b d e f)
    | |- context [decide ?P] => destruct (decide P)
    | |- context [SuperClusterPooling c] => destruct (SuperClusterPooling c)
    | |- context [GetVirtualClusterObject c ?x] =>
        destruct (GetVirtualClusterObject c x)
    | |- context [CheckNamespaceEquality c ?a ?b ?d] =>
        destruct (CheckNamespaceEquality c a b d)
    | |- context [namespaceClient c ?r ?s] =>
        destruct (namespaceClient c r s) as [[[[| | |]|]|] ?]
    end;
  cbn.

Lemma Reconcile_requests (request : Request) (w : World S) :
  requests (snd (Reconcile c request w))
  = requests w ++ expectedRequests c request.
Proof.
  unfold expectedRequests. reconcile_paths;
    rewrite ?app_nil_r; try reflexivity; try congruence; contradiction.
Qed.

Lemma Reconcile_silent (request : Request) (w : World S) :
  expectedRequests c request = [] ->
  snd (Reconcile c request w) = w.
Proof.
  unfold expectedRequests. reconcile_paths;
    intros Hnone; try reflexivity; try discriminate; contradiction.
Qed.

(** X9: the request of a reconcile is decided by the two caches alone, never
    by what the super cluster holds or answers, and a reconcile sends at
    most one; a reconcile that sends none leaves the super cluster as it
    found it. *)
Theorem Reconcile_sends_at_most_one (request : Request) (w : World S) :
  requests (snd (Reconcile c request w))
    = requests w ++ expectedRequests c request /\
  (length (expectedRequests c request) <= 1)%nat /\
  (expectedRequests c request = [] -> snd (Reconcile c request w) = w).
Proof.
  split; [apply Reconcile_requests|]. split; [|apply Reconcile_silent].
  unfold expectedRequests.
  repeat match goal with
    | |- context [match ?x with _ => _ end] => destruct x
    end; cbn; lia.
Qed.


(** X11: the answer of the super cluster to the one request is the outcome of
    the reconcile: no error, AlreadyExists to a create and NotFound to a
    delete end it without error and without requeue, every other error
    is returned with a requeue; the super cluster is in the state the
    request left it in. *)
Theorem Reconcile_forwards_answer (request : Request) (w : World S)
    (r : ApiRequest) (err : option error) (s' : S) :
  expectedRequests c request = [r] ->
  namespaceClient c r (server w) = (err, s') ->
  Reconcile c request w
  = (match err with
     | Some e => if tolerated r err then (Done, None) else (RequeueNow, Some e)
     | None => (Done, None)
     end,
     {| server := s'; requests := requests w ++ [r] |}).
Proof.
  unfold expectedRequests, Reconcile, finish, reconcileNamespaceCreate,
    reconcileNamespaceUpdate, reconcileNamespaceRemove, bind, call, ret.
  repeat match goal with
    | |- context [existing ?r] => destruct (existing r) as [?|[?|]]
    | |- context [GetOwnerInfo c ?x] => destruct (GetOwnerInfo c x) as [?|[[? ?] ?]]
    | |- context [BuildSuperMasterNamespace c ?a ?b ?d ?e ?f] =>
        destruct (BuildSuperMasterNamespace c a b d e f)
    | |- context [decide (?a = ?b)] => destruct (decide (a = b))
    | |- context [decide (?a <> ?b)] => destruct (decide (a <> b))
    | |- context [SuperClusterPooling c] => destruct (SuperClusterPooling c)
    | |- context [GetVirtualClusterObject c ?x] =>
        destruct (GetVirtualClusterObject c x)
    | |- context [CheckNamespaceEquality c ?a ?b ?d] =>
        destruct (CheckNamespaceEquality c a b d)
    end;
    intros Hr Hserve; try discriminate; try contradiction;
    injection Hr as <-; rewrite Hserve;
    destruct err as [[[| | |]|]|]; reflexivity.
Qed.

(** X12: a cache that fails with anything but NotFound ends the reconcile at
    once: the error is returned with a requeue and nothing is sent. *)
Theorem Reconcile_cache_error (request : Request) (w : World S) (e : error) :
  nsLister c (ToSuperMasterNamespace c (ClusterName request) (ReqName request))
    = inl e \/
  ((exists p, existing (nsLister c (ToSuperMasterNamespace c
                (ClusterName request) (ReqName request))) = inr p) /\
   mcGet c (ClusterName request) (ReqNamespace request) (ReqName request)
     = inl e) ->
  IsNotFound (Some e) = false ->
  Reconcile c request w = ((RequeueNow, Some e), w).
Proof.
  intros [Hp|[[p Hp] Hv]] He; unfold Reconcile; rewrite Hp.
  - unfold existing. rewrite He. reflexivity.
  - rewrite Hv. unfold existing at 1. rewrite He. reflexivity.
Qed.

(** X13: with both namespaces present and the UIDs in agreement, the reconcile
    has nothing to do when the SuperClusterPooling gate is off or the
    equality check finds no difference. *)
Theorem Reconcile_update_nothing_to_do (request : Request) (w : World S)
    (pNamespace vNamespace : Object) :
  nsLister c (ToSuperMasterNamespace c (ClusterName request) (ReqName request))
    = inr pNamespace ->
  mcGet c (ClusterName request) (ReqNamespace request) (ReqName request)
    = inr vNamespace ->
  annotation pNamespace (LabelUID c) = ReqUID request ->
  SuperClusterPooling c = false \/
  (exists vc, GetVirtualClusterObject c (ClusterName request) = inr vc /\
              CheckNamespaceEquality c vc pNamespace vNamespace = None) ->
  Reconcile c request w = ((Done, None), w).
Proof.
  intros Hp Hv Huid Hgate. unfold Reconcile. rewrite Hp, Hv. cbn.
  unfold finish, reconcileNamespaceUpdate, bind, ret.
  destruct (decide _) as [Hne|_]; [done|].
  destruct Hgate as [->|(vc & -> & ->)]; [reflexivity|].
  by destruct (SuperClusterPooling c).
Qed.

(** X14: a reconcile deletes orphans only: a delete that was not in the log
    before is for the target namespace, the tenant cache answered
    NotFound, and the super namespace of the informer cache carries the
    UID of the request; the options are the default policy and the UID of
    that super namespace. *)
Theorem Reconcile_deletes_only_orphans (request : Request) (w : World S)
    (name : string) (opts : DeleteOptions) :
  DeleteNamespace name opts ∈ requests (snd (Reconcile c request w)) ->
  DeleteNamespace name opts ∈ requests w \/
  (name = ToSuperMasterNamespace c (ClusterName request) (ReqName request) /\
   exists e pNamespace,
     mcGet c (ClusterName request) (ReqNamespace request) (ReqName request)
       = inl e /\
     IsNotFound (Some e) = true /\
     nsLister c name = inr pNamespace /\
     annotation pNamespace (LabelUID c) = ReqUID request /\
     opts = {| PropagationPolicy := Some (DefaultDeletionPolicy c);
               DeletePreconditions := NewUIDPreconditions (UID pNamespace) |}).
Proof.
  rewrite Reconcile_requests, elem_of_app.
  intros [Hold|Hnew]; [by left|right].
  revert Hnew. unfold expectedRequests, existing.
  destruct (nsLister c _) as [ep|p] eqn:Hp;
    destruct (mcGet c _ _ _) as [ev|v] eqn:Hv;
    repeat (cbv beta iota zeta; match goal with
      | |- context [IsNotFound ?x] => destruct (IsNotFound x) eqn:?
      | |- context [GetOwnerInfo c ?x] =>
          destruct (GetOwnerInfo c x) as [?|[[? ?] ?]]
      | |- context [BuildSuperMasterNamespace c ?a ?b ?d ?e ?f] =>
          destruct (BuildSuperMasterNamespace c a b d e f)
      | |- context [decide ?P] => destruct (decide P)
      | |- context [SuperClusterPooling c] => destruct (SuperClusterPooling c)
      | |- context [GetVirtualClusterObject c ?x] =>
          destruct (GetVirtualClusterObject c x)
      | |- context [CheckNamespaceEquality c ?a ?b ?d] =>
          destruct (CheckNamespaceEquality c a b d)
      end);
    cbv beta iota zeta;
    rewrite ?elem_of_nil, ?list_elem_of_singleton; try done.
  intros [= -> ->]. split; [reflexivity|].
  exists ev, p. by rewrite Hp.
Qed.

End Reconcile.

Lemma Reconcile_forwards_answer_witness :
  Reconcile ctlOrphan request1 (worldOf (superOf pForeign))
  = ((RequeueNow, Some (StatusError StatusReasonConflict)),
     {| server := superOf pForeign;
        requests := [] ++
          [DeleteNamespace "cluster1-ns1"
             {| PropagationPolicy := Some Background;
                DeletePreconditions := NewUIDPreconditions "p-uid-1" |}] |}).
Proof.
  apply (Reconcile_forwards_answer ctlOrphan request1
           (worldOf (superOf pForeign))
           (DeleteNamespace "cluster1-ns1"
              {| PropagationPolicy := Some Background;
                 DeletePreconditions := NewUIDPreconditions "p-uid-1" |})
           (Some (StatusError StatusReasonConflict)) (superOf pForeign));
    reflexivity.
Defined.

Lemma Reconcile_cache_error_witness :
  Reconcile ctlUnsynced request1 (worldOf (superOf pNs1))
  = ((RequeueNow, Some (Errorf "cluster cache is not synced")),
     worldOf (superOf pNs1)).
Proof.
  apply (Reconcile_cache_error ctlUnsynced request1 (worldOf (superOf pNs1))).
  - right. split; [by exists (Some pNs1)|reflexivity].
  - reflexivity.
Defined.

Lemma Reconcile_update_nothing_to_do_witness :
  Reconcile ctlSynced request1 (worldOf (superOf pNs1))
  = ((Done, None), worldOf (superOf pNs1)).
Proof.
  apply (Reconcile_update_nothing_to_do ctlSynced request1
           (worldOf (superOf pNs1)) pNs1 vNs1);
    [reflexivity | reflexivity | reflexivity | by left].
Defined.

Lemma Reconcile_deletes_only_orphans_witness :
  DeleteNamespace "cluster1-ns1"
    {| PropagationPolicy := Some Background;
       DeletePreconditions := NewUIDPreconditions "p-uid-1" |}
    ∈ requests (worldOf (superOf pNs1)) \/
  ("cluster1-ns1"%string
   = ToSuperMasterNamespace ctlOrphan (ClusterName request1) (ReqName request1) /\
   exists e pNamespace,
     mcGet ctlOrphan (ClusterName request1) (ReqNamespace request1)
       (ReqName request1) = inl e /\
     IsNotFound (Some e) = true /\
     nsLister ctlOrphan "cluster1-ns1" = inr pNamespace /\
     annotation pNamespace (LabelUID ctlOrphan) = ReqUID request1 /\
     {| PropagationPolicy := Some Background;
        DeletePreconditions := NewUIDPreconditions "p-uid-1" |}
     = {| PropagationPolicy := Some (DefaultDeletionPolicy ctlOrphan);
          DeletePreconditions := NewUIDPreconditions (UID pNamespace) |}).
Proof.
  apply (Reconcile_deletes_only_orphans ctlOrphan request1
           (worldOf (superOf pNs1))).
  apply list_elem_of_here.
Defined.

Lemma remove_rejects_foreign_uid_witness :
  exists msg,
    Reconcile ctlForeignOrphan request1 (worldOf (superOf pForeign))
    = ((RequeueNow, Some (Errorf msg)), worldOf (superOf pForeign)) /\
    Contains msg "delegated UID is different".
Proof.
  apply (NamespaceDWSFacts.remove_rejects_foreign_uid ctlForeignOrphan request1
           (worldOf (superOf pForeign)) pForeign);
    [reflexivity | reflexivity | vm_compute; discriminate].
Defined.

End NamespaceDWSMore.

(** ** Further properties of the service patroller *)
Module ServicePatrolMore.
Import Syncer ServicePatrol ServicePatrolFacts.

Section Patrol.
Context {S : Type} (c : controller S).

Ltac check_paths :=
  unfold checkService;
  repeat (cbv beta iota zeta; match goal with
    | |- context [serviceListerGet c ?a ?b] =>
        destruct (serviceListerGet c a b) as [?|?] eqn:?
    | |- context [IsNotFound ?x] => destruct (IsNotFound x) eqn:?
    | |- context [decide ?P] => destruct (decide P)
    | |- context [GetVirtualClusterObject c ?x] =>
        destruct (GetVirtualClusterObject c x) eqn:?
    | |- context [CheckServiceEquality c ?a ?b ?d] =>
        destruct (CheckServiceEquality c a b d) eqn:?
    | |- context [isBackPopulateService c ?x] =>
        destruct (isBackPopulateService c x)
    | |- context [CheckUWObjectMetaEquality c ?a ?b ?d] =>
        destruct (CheckUWObjectMetaEquality c a b d)
    | |- context [statusDeepEqual c ?a ?b] =>
        destruct (statusDeepEqual c a b)
    end);
  cbn.

Lemma Grows_refl (r : Report) : Grows 0 r r.
Proof. unfold Grows. lia. Qed.

Lemma Grows_trans (n m : nat) (r1 r2 r3 : Report) :
  Grows n r1 r2 -> Grows m r2 r3 -> Grows (n + m) r1 r3.
Proof. unfold Grows. lia. Qed.

Lemma checkService_grows (cl : string) (v : Object) (r : Report) :
  Grows 1 r (checkService c cl v r).
Proof. unfold Grows. check_paths; rewrite ?length_app; cbn; lia. Qed.

Lemma checkService_requeued (cl : string) (v : Object) (r : Report) :
  requeued (checkService c cl v r) = requeued r \/
  (requeued (checkService c cl v r) = requeued r ++ [(cl, v)] /\
   RequeueJustified c cl v).
Proof.
  unfold RequeueJustified. check_paths; try (by left); right;
    (split; [reflexivity|]).
  all: try (left; eexists; split; [reflexivity|done]).
  all: right; do 2 eexists; repeat split; try reflexivity; try congruence.
  all: by apply dec_stable.
Qed.

Lemma foldl_checkService_grows (cl : string) (items : list Object) :
  forall r, Grows (length items) r
              (foldl (fun r v => checkService c cl v r) r items).
Proof.
  induction items as [|v items IH]; intros r; [apply Grows_refl|].
  cbn [foldl length].
  apply (Grows_trans 1 (length items) _ _ _ (checkService_grows cl v r)), IH.
Qed.

Lemma checkServices_grows (cl : string) (r : Report) :
  Grows (length (listed c cl)) r (checkServicesOfTenantCluster c cl r).
Proof.
  unfold checkServicesOfTenantCluster, listed.
  destruct (mcList c cl); [apply Grows_refl | apply foldl_checkService_grows].
Qed.

(** X16: the tenant-side check of one cluster only adds to the report.  Over a
    cluster that lists [n] services every mismatch counter and both
    queues grow by at most [n], every counted spec mismatch is requeued,
    and every enqueued super service stands for one or two counted status
    or meta mismatches.  A cluster whose list fails adds nothing. *)
Theorem tenant_check_grows (cl : string) (r : Report) :
  Grows (length (listed c cl)) r (checkServicesOfTenantCluster c cl r) /\
  (forall e, mcList c cl = inl e -> checkServicesOfTenantCluster c cl r = r).
Proof.
  split; [apply checkServices_grows|].
  intros e He. unfold checkServicesOfTenantCluster. by rewrite He.
Qed.

(** X17: the tenant services that the check of a cluster hands to
    [RequeueObject] are services the cluster lists, each for one of two
    reasons: its super service is not found in the informer cache, or the
    super service carries its UID and the specs differ.  What was
    requeued before stays, in order. *)
Theorem tenant_check_requeues_justified (cl : string) (r : Report) :
  exists new,
    requeued (checkServicesOfTenantCluster c cl r) = requeued r ++ new /\
    Forall (fun x => x.1 = cl /\ x.2 ∈ listed c cl /\
                     RequeueJustified c cl x.2) new.
Proof.
  unfold checkServicesOfTenantCluster, listed.
  destruct (mcList c cl) as [e|items].
  { exists []. by rewrite app_nil_r. }
  assert (Hfold : forall l r,
    exists new,
      requeued (foldl (fun r v => checkService c cl v r) r l)
        = requeued r ++ new /\
      Forall (fun x => x.1 = cl /\ x.2 ∈ l /\ RequeueJustified c cl x.2) new).
  { clear r. induction l as [|v l IH]; intros r.
    - exists []. by rewrite app_nil_r.
    - cbn [foldl]. destruct (IH (checkService c cl v r)) as (new & -> & Hnew).
      assert (Hl : Forall (fun x => x.1 = cl /\ x.2 ∈ v :: l /\
                                    RequeueJustified c cl x.2) new).
      { eapply Forall_impl; [exact Hnew|].
        intros x (? & ? & ?). repeat split; [done| by right |done]. }
      destruct (checkService_requeued cl v r) as [->|[-> Hv]].
      + by exists new.
      + exists ((cl, v) :: new). split; [by rewrite <- app_assoc|].
        constructor; [|exact Hl]. repeat split; [by left | exact Hv]. }
  apply Hfold.
Qed.

Lemma deleteOrphans_count (pServices : list Object) :
  forall (deleted : nat) (w : World S),
    (deleted <= fst (deleteOrphans c pServices deleted w)
       <= deleted + length (orphanDeletes c pServices))%nat /\
    ((forall r s, fst (serviceClient c r s) = None) ->
     fst (deleteOrphans c pServices deleted w)
     = (deleted + length (orphanDeletes c pServices))%nat).
Proof.
  unfold orphanDeletes.
  induction pServices as [|p l IH]; intros deleted w.
  - cbn. split; [lia|intros _; lia].
  - cbn [deleteOrphans]. rewrite filter_cons.
    destruct (decide (shouldDelete c p = Some true)) as [Hp|Hp].
    + rewrite Hp. unfold bind, call.
      destruct (serviceClient c _ (server w)) as [err s'] eqn:Hserve.
      rewrite fmap_cons. cbn [length].
      match goal with
      | |- context [deleteOrphans c l ?d ?w'] =>
          destruct (IH d w') as [Hle Heq]
      end.
      split.
      * destruct err; lia.
      * intros Hok. rewrite Heq by done.
        specialize (Hok (DeleteService (Namespace p) (Name p)
                           (NewPreconditionDeleteOptions (UID p))) (server w)).
        rewrite Hserve in Hok. cbn in Hok. subst err. lia.
    + destruct (shouldDelete c p) as [[|]|]; [done | apply IH | apply IH].
Qed.


(** X19: the count of a pass, which feeds the remedy metric
    DeletedOrphanSuperMasterServices, is the number of deletes the super
    cluster accepted: never more than the deletes sent, and all of them
    when the super cluster refuses none. *)
Theorem PatrollerDo_counts_accepted_deletes (w : World S)
    (pServices : list Object) :
  GetClusterNames c <> [] ->
  serviceListerList c = inr pServices ->
  exists report deleted,
    fst (PatrollerDo c w) = Some (report, deleted) /\
    (deleted <= length (orphanDeletes c pServices))%nat /\
    ((forall r s, fst (serviceClient c r s) = None) ->
     deleted = length (orphanDeletes c pServices)).
Proof.
  intros Hcl Hlist. unfold PatrollerDo.
  destruct (GetClusterNames c) as [|cl cls]; [done|].
  rewrite Hlist. unfold bind.
  destruct (deleteOrphans_count pServices 0 w) as [Hle Heq].
  destruct (deleteOrphans c pServices 0 w) as [deleted w'].
  cbn in *. do 2 eexists. split; [reflexivity|]. split; [lia|].
  intros Hok. by rewrite Heq.
Qed.

(** X20: the report of a pass starts from zero: after a pass that does not
    give up, each mismatch counter is at most the number of tenant
    services listed over all joined clusters. *)
Theorem PatrollerDo_report_bounded (w : World S) (report : Report)
    (deleted : nat) :
  fst (PatrollerDo c w) = Some (report, deleted) ->
  Grows (length (GetClusterNames c ≫= listed c)) emptyReport report.
Proof.
  unfold PatrollerDo.
  destruct (GetClusterNames c) as [|cl cls] eqn:Hnames; [discriminate|].
  rewrite <- Hnames. clear Hnames.
  destruct (serviceListerList c) as [e|pServices]; [discriminate|].
  unfold bind. destruct (deleteOrphans c pServices 0 w) as [d w'].
  cbn. intros [= <- _].
  generalize emptyReport. induction (GetClusterNames c) as [|x l IH]; intros r.
  - apply Grows_refl.
  - cbn [foldl]. rewrite bind_cons, length_app.
    eapply Grows_trans; [apply checkServices_grows | apply IH].
Qed.

End Patrol.

Example lagging_cluster_report :
  checkServicesOfTenantCluster lagPatrol "cluster1" emptyReport
  = {| numSpecMissMatchedServices := 1; numStatusMissMatchedServices := 1;
       numUWMetaMissMatchedServices := 0;
       requeued := [("cluster1"%string, vDb); ("cluster1"%string, vCache)];
       enqueued := [pDb] |}.
Proof. vm_compute. reflexivity. Qed.

Lemma PatrollerDo_counts_accepted_deletes_witness :
  exists report deleted,
    fst (PatrollerDo (fakePatrol ["cluster1"%string]) idle)
      = Some (report, deleted) /\
    (deleted <= length (orphanDeletes (fakePatrol ["cluster1"%string])
                          [pWeb; pDb]))%nat /\
    ((forall r s, fst (serviceClient (fakePatrol ["cluster1"%string]) r s) = None) ->
     deleted = length (orphanDeletes (fakePatrol ["cluster1"%string])
                         [pWeb; pDb])).
Proof.
  apply (PatrollerDo_counts_accepted_deletes (fakePatrol ["cluster1"%string])
           idle [pWeb; pDb]); [discriminate | reflexivity].
Defined.

Lemma PatrollerDo_report_bounded_witness :
  Grows (length (GetClusterNames lagPatrol ≫= listed lagPatrol)) emptyReport
    {| numSpecMissMatchedServices := 1; numStatusMissMatchedServices := 1;
       numUWMetaMissMatchedServices := 0;
       requeued := [("cluster1"%string, vDb); ("cluster1"%string, vCache)];
       enqueued := [pDb] |}.
Proof.
  apply (PatrollerDo_report_bounded lagPatrol idle _ 0%nat).
  vm_compute. reflexivity.
Defined.

End ServicePatrolMore.

(** ** Further properties of the object validator *)
Module ObjectValidatorMore.
Import ObjectValidator ObjectValidatorFacts.

Section Validator.
Context {Canon : Type} `{EqDecision Canon} (o : Object Canon).

(** X21: the three early exits of [Handle] allow the request whatever it
    carries: a request in an excluded namespace, for a kind that is not
    in propagate mode, or by the HNC service account. *)
Theorem Handle_early_exit_allowed (req : AdmissionRequest) :
  EX o (ReqNamespace req) = true \/
  isPropagateType o (ReqKind req) = false \/
  isHNCServiceAccount o (ReqUserInfo req) = true ->
  Allowed (Handle o req) = true.
Proof.
  unfold Handle. intros Hexit.
  destruct (EX o (ReqNamespace req)); [reflexivity|].
  destruct (isPropagateType o (ReqKind req)); [|reflexivity].
  destruct (isHNCServiceAccount o (ReqUserInfo req)); [reflexivity|].
  by destruct Hexit as [|[|]].
Qed.

(** X22: past the early exits, a request whose object cannot be decoded is
    denied as a bad request with the text of the decoder's error: the new
    object of every operation but DELETE, and the old object of every
    operation but CREATE (for a DELETE, when there is one). *)
Theorem Handle_undecodable_denied (req : AdmissionRequest) (e : error) :
  EX o (ReqNamespace req) = false ->
  isPropagateType o (ReqKind req) = true ->
  isHNCServiceAccount o (ReqUserInfo req) = false ->
  (ReqOperation req <> Delete /\ Decode o req = inl e) \/
  (ReqOperation req <> Create /\
   (ReqOperation req = Delete -> is_Some (ReqOldObject req)) /\
   (ReqOperation req <> Delete -> exists inst, Decode o req = inr inst) /\
   DecodeRaw o (ReqOldObject req) = inl e) ->
  Handle o req = deny StatusReasonBadRequest (Syncer.ErrorText e).
Proof.
  intros Hex Hprop Hsa Hdec. unfold Handle. rewrite Hex, Hprop, Hsa. cbn.
  destruct Hdec as [[Hop Hnew]|(Hop & Hold & Hnew & Hraw)].
  - destruct (ReqOperation req); try done; cbn; by rewrite Hnew.
  - destruct (ReqOperation req) eqn:Heq; try done; cbn.
    + destruct Hnew as [inst ->]; [done|]. by rewrite Hraw.
    + rewrite (bool_decide_eq_true_2 _ (Hold eq_refl)). cbn. by rewrite Hraw.
    + destruct Hnew as [inst ->]; [done|]. by rewrite Hraw.
Qed.

(** X23: a DELETE that comes without an old object cannot be validated and is
    allowed, whatever the namespace holds. *)
Theorem delete_without_old_object_allowed (req : AdmissionRequest) :
  ReqOperation req = Delete -> ReqOldObject req = None ->
  Allowed (Handle o req) = true.
Proof.
  intros Hop Hold. unfold Handle.
  destruct (EX o (ReqNamespace req)); [reflexivity|].
  destruct (isPropagateType o (ReqKind req)); [|reflexivity].
  destruct (isHNCServiceAccount o (ReqUserInfo req)); [reflexivity|].
  rewrite Hop, Hold. reflexivity.
Qed.

(** X25: a propagated object is refused with an internal error in two cases
    only: the operation is none of CREATE, UPDATE and DELETE, or it is a
    DELETE and the look-up of the object's namespace fails with an error
    other than NotFound.  Every other refusal is Forbidden. *)
Theorem handleInherited_reason (op : Operation) (newSource oldSource : string)
    (inst oldInst : Unstructured) :
  (Reason (handleInherited o op newSource oldSource inst oldInst)
     = Some StatusReasonInternalError <->
   op = Connect \/
   (op = Delete /\
    exists e, getNamespace o (objNamespace oldInst) = inl e /\
              Syncer.IsNotFound (Some e) = false)) /\
  (Allowed (handleInherited o op newSource oldSource inst oldInst) = false ->
   Reason (handleInherited o op newSource oldSource inst oldInst)
     = Some StatusReasonInternalError \/
   Reason (handleInherited o op newSource oldSource inst oldInst)
     = Some StatusReasonForbidden).
Proof.
  destruct op; cbn -[Syncer.IsNotFound isDeletingNS].
  - split; [|by right]. split; [done|]. by intros [|[]].
  - repeat destruct (decide _); cbn; (split; [|by (right || intros)]);
      (split; [done|]); by intros [|[]].
  - unfold isDeletingNS.
    destruct (getNamespace o (objNamespace oldInst)) as [e|nsObj].
    + destruct (Syncer.IsNotFound (Some e)) eqn:Hnf;
        cbn -[Syncer.IsNotFound].
      * split; [|done]. split; [done|].
        intros [|[_ (e' & [= <-] & Hnf')]]; congruence.
      * split; [|by left]. split; [|done]. intros _. right. eauto.
    + destruct (IsZero (DeletionTimestamp nsObj)); cbn;
        (split; [|by (right || intros)]); (split; [done|]);
        by intros [|[_ (e' & [=] & _)]].
  - split; [|by left]. split; [by left|done].
Qed.

(** X26: an object that neither was nor is propagated is judged by the checks
    on source objects alone, whatever the operation: it is allowed
    exactly when the five selector checks pass and no descendant holds a
    conflicting object, and it is refused as a conflict exactly when the
    five checks pass and a descendant does. *)
Theorem handle_source_allowed_iff (op : Operation) (inst oldInst : Unstructured) :
  ~ Inherited o inst -> ~ Inherited o oldInst ->
  let checksPass :=
    validateSelectorAnnot o inst = ""%string /\
    validateSelectorChange o inst oldInst = None /\
    validateTreeSelectorChange o inst oldInst = None /\
    validateNoneSelectorChange o inst oldInst = None /\
    validateSelectorUniqueness o inst oldInst = ""%string in
  (Allowed (handle o op inst oldInst) = true <->
   checksPass /\ (hasConflict o inst).1 = false) /\
  (Reason (handle o op inst oldInst) = Some StatusReasonConflict <->
   checksPass /\ (hasConflict o inst).1 = true).
Proof.
  unfold Inherited. rewrite <- !GetLabel_found. intros Hnew Hold.
  unfold handle.
  destruct (GetLabel oldInst _) as [oldSource [|]]; [done|].
  destruct (GetLabel inst _) as [newSource [|]]; [done|].
  cbn. unfold handleSource.
  destruct (String.eqb_spec (validateSelectorAnnot o inst) "") as [->|Ha]; cbn.
  2: { split; (split; [done|]); by intros [(? & _) _]. }
  destruct (validateSelectorChange o inst oldInst); cbn.
  { split; (split; [done|]); by intros [(_ & ? & _) _]. }
  destruct (validateTreeSelectorChange o inst oldInst); cbn.
  { split; (split; [done|]); by intros [(_ & _ & ? & _) _]. }
  destruct (validateNoneSelectorChange o inst oldInst); cbn.
  { split; (split; [done|]); by intros [(_ & _ & _ & ? & _) _]. }
  destruct (String.eqb_spec (validateSelectorUniqueness o inst oldInst) "")
    as [->|Hu]; cbn.
  2: { split; (split; [done|]); by intros [(_ & _ & _ & _ & ?) _]. }
  destruct (hasConflict o inst) as [[|] msg]; cbn;
    split; split; try done; by intros [_ ?].
Qed.

End Validator.

Lemma Handle_early_exit_allowed_witness :
  Allowed (Handle validator (request "kube-system" Create (Some "sys"%string) None))
  = true.
Proof.
  apply (Handle_early_exit_allowed validator
           (request "kube-system" Create (Some "sys"%string) None)).
  left. reflexivity.
Defined.

Lemma Handle_undecodable_denied_witness :
  Handle validator (request "child" Update (Some "lost"%string) (Some "old"%string))
  = deny StatusReasonBadRequest "there is no content to decode" /\
  Handle validator (request "child" Delete None (Some "lost"%string))
  = deny StatusReasonBadRequest "there is no content to decode".
Proof.
  split.
  - apply (Handle_undecodable_denied validator
             (request "child" Update (Some "lost"%string) (Some "old"%string))
             (Syncer.Errorf "there is no content to decode"));
      [reflexivity | reflexivity | reflexivity |].
    left. split; [discriminate | reflexivity].
  - apply (Handle_undecodable_denied validator
             (request "child" Delete None (Some "lost"%string))
             (Syncer.Errorf "there is no content to decode"));
      [reflexivity | reflexivity | reflexivity |].
    right. split; [discriminate|]. split; [intros _; by eexists|].
    split; [intros Hop; by destruct Hop | reflexivity].
Defined.

Lemma delete_without_old_object_allowed_witness :
  Allowed (Handle validator (request "child" Delete None None)) = true.
Proof.
  apply (delete_without_old_object_allowed validator
           (request "child" Delete None None)); reflexivity.
Defined.


Lemma handle_source_allowed_iff_witness :
  (Allowed (handle validator Create emptyObject emptyObject) = true <->
   (validateSelectorAnnot validator emptyObject = ""%string /\
    validateSelectorChange validator emptyObject emptyObject = None /\
    validateTreeSelectorChange validator emptyObject emptyObject = None /\
    validateNoneSelectorChange validator emptyObject emptyObject = None /\
    validateSelectorUniqueness validator emptyObject emptyObject = ""%string) /\
   (hasConflict validator emptyObject).1 = false) /\
  (Reason (handle validator Create emptyObject emptyObject)
     = Some StatusReasonConflict <->
   (validateSelectorAnnot validator emptyObject = ""%string /\
    validateSelectorChange validator emptyObject emptyObject = None /\
    validateTreeSelectorChange validator emptyObject emptyObject = None /\
    validateNoneSelectorChange validator emptyObject emptyObject = None /\
    validateSelectorUniqueness validator emptyObject emptyObject = ""%string) /\
   (hasConflict validator emptyObject).1 = true).
Proof.
  apply (handle_source_allowed_iff validator Create emptyObject emptyObject);
    intros [source Hlabel]; vm_compute in Hlabel; discriminate Hlabel.
Defined.

End ObjectValidatorMore.

(** ** Properties of the checks on source objects *)
Module SourceChecksFacts.
Import ObjectValidator SourceChecks.

Section Checks.
Context {Labels : Type} (k : Packages Labels).

Lemma invalidAnnotation_nonempty (key : string) :
  invalidAnnotation k key <> ""%string.
Proof. unfold invalidAnnotation. discriminate. Qed.

Lemma checkAnnotation_None (key : string) :
  checkAnnotation k key = None <-> (InMetaGroup k key -> KnownException k key).
Proof.
  unfold checkAnnotation, InMetaGroup, KnownException, SplitN2.
  destruct (cut dot (cut slash key).1) as [h [t|]]; cbn [snd].
  2: { split; [intros _ [=] | done]. }
  destruct (String.eqb_spec t (MetaGroup k)) as [->|Ht]; cbn [negb].
  2: { split; [intros _ [= ?]; done | done]. }
  destruct (String.eqb_spec (cut slash key).1 (AnnotationPropagatePrefix k))
    as [Hp|Hp]; cbn [negb].
  2: { split; [done | intros Hk; by destruct Hk]. }
  destruct (String.eqb_spec key (AnnotationSelector k)) as [Hs|Hs];
    destruct (String.eqb_spec key (AnnotationTreeSelector k)) as [Htr|Htr];
    destruct (String.eqb_spec key (AnnotationNoneSelector k)) as [Hn|Hn];
    cbn [negb andb]; split; try done; try (intros _ _; tauto).
  intros Hk. destruct Hk as [_ [|[|]]]; done.
Qed.

Lemma checkAnnotation_Some (key msg : string) :
  checkAnnotation k key = Some msg -> msg <> ""%string.
Proof.
  unfold checkAnnotation, SplitN2.
  destruct (cut dot (cut slash key).1) as [h [t|]]; [|discriminate].
  destruct (negb (String.eqb t _)); [discriminate|].
  destruct (negb (String.eqb _ _));
    [intros [= <-]; apply invalidAnnotation_nonempty|].
  destruct (_ && _); [|discriminate].
  intros [= <-]. apply invalidAnnotation_nonempty.
Qed.

Lemma validateSelectorAnnotIn_ok (keys : list string) :
  validateSelectorAnnotIn k keys = ""%string <->
  forall key, key ∈ keys -> InMetaGroup k key -> KnownException k key.
Proof.
  induction keys as [|key keys IH]; cbn [validateSelectorAnnotIn].
  - split; [intros _ key Hin; by apply elem_of_nil in Hin | done].
  - destruct (checkAnnotation k key) as [msg|] eqn:Hkey.
    + split.
      * intros ->. by apply checkAnnotation_Some in Hkey.
      * intros Hall. exfalso.
        assert (Hnone : checkAnnotation k key = None).
        { apply checkAnnotation_None, Hall. by left. }
        congruence.
    + rewrite IH.
      pose proof (proj1 (checkAnnotation_None key) Hkey) as Hok. split.
      * intros Hall key' [->|Hin]%elem_of_cons; [done | by apply Hall].
      * intros Hall key' Hin. apply Hall. by right.
Qed.

(** X27: [validateSelectorAnnot] accepts an object exactly when each of its
    annotation keys of the HNC meta group is one of the three selector
    annotations under the propagate prefix; keys of other groups, and
    keys without a dot before the first slash, are not looked at.  The
    order in which the keys are ranged over plays no part. *)
Theorem validateSelectorAnnot_ok_iff (inst : Unstructured) :
  validateSelectorAnnot k inst = ""%string <->
  forall key, is_Some (objAnnotations inst !! key) ->
              InMetaGroup k key -> KnownException k key.
Proof.
  unfold validateSelectorAnnot. rewrite validateSelectorAnnotIn_ok.
  split; intros Hall key Hin; apply Hall.
  - destruct Hin as [v Hv]. apply list_elem_of_fmap. exists (key, v).
    split; [reflexivity|]. by apply elem_of_map_to_list.
  - apply list_elem_of_fmap in Hin as ([key' v] & -> & Hv).
    apply elem_of_map_to_list in Hv. by exists v.
Qed.

(** X28: two objects with the same three selector annotations pass the three
    selector-change checks and the uniqueness check, whatever the
    annotations hold: a selector that does not parse, or several
    selectors at once, are only refused when a request changes them. *)
Theorem unchanged_selectors_pass (inst oldInst : Unstructured) :
  SelectorsUnchanged k inst oldInst ->
  validateSelectorChange k inst oldInst = None /\
  validateTreeSelectorChange k inst oldInst = None /\
  validateNoneSelectorChange k inst oldInst = None /\
  validateSelectorUniqueness k inst oldInst = ""%string.
Proof.
  intros (Hs & Ht & Hn).
  unfold validateSelectorChange, validateTreeSelectorChange,
    validateNoneSelectorChange, validateSelectorUniqueness.
  cbv zeta. rewrite Hs, Ht, Hn, !String.eqb_refl, !orb_true_r. done.
Qed.

Lemma Join_two_nonempty (prefix : string) (found : list string) :
  (String (Ascii.ascii_of_nat 99) prefix ++ Join found ", ")%string
  <> ""%string.
Proof. discriminate. Qed.

(** X29: [validateSelectorUniqueness] accepts exactly the requests that change
    no selector annotation or whose new object sets at most one of the
    three. *)
Theorem validateSelectorUniqueness_ok_iff (inst oldInst : Unstructured) :
  validateSelectorUniqueness k inst oldInst = ""%string <->
  SelectorsUnchanged k inst oldInst \/ (selectorsSet k inst <= 1)%nat.
Proof.
  unfold validateSelectorUniqueness, SelectorsUnchanged, selectorsSet.
  cbv zeta.
  destruct (String.eqb_spec (GetSelectorAnnotation k oldInst)
              (GetSelectorAnnotation k inst)) as [Hs|Hs];
    destruct (String.eqb_spec (GetTreeSelectorAnnotation k oldInst)
                (GetTreeSelectorAnnotation k inst)) as [Ht|Ht];
    destruct (String.eqb_spec (GetNoneSelectorAnnotation k oldInst)
                (GetNoneSelectorAnnotation k inst)) as [Hn|Hn];
    cbn [negb orb]; try (split; [intros _; by left | done]);
    destruct (String.eqb_spec (GetSelectorAnnotation k inst) "") as [Es|Es];
    destruct (String.eqb_spec (GetTreeSelectorAnnotation k inst) "") as [Et|Et];
    destruct (String.eqb_spec (GetNoneSelectorAnnotation k inst) "") as [En|En];
    repeat destruct (decide _); try done;
    cbn [negb app length Nat.leb];
    (split; [try (intros _; right; cbn; lia) | try done]);
    try (intros [(? & ? & ?)|Hle]; [done | cbn in Hle; lia]);
    try (intros Hmsg; by apply Join_two_nonempty in Hmsg).
Qed.

Lemma conflicts_are_filtered (inst : Unstructured) (descs acc : list string) :
  foldl (fun conflicts desc =>
           if HasSourceObject k desc (GroupVersionKindOf k inst) (objName inst)
           then
             if ShouldPropagate k inst (GetLabels k (objNamespace inst))
             then conflicts ++ [desc] else conflicts
           else conflicts) acc descs
  = acc ++ filter (fun desc =>
        HasSourceObject k desc (GroupVersionKindOf k inst) (objName inst) = true /\
        ShouldPropagate k inst (GetLabels k (objNamespace inst)) = true) descs.
Proof.
  revert acc. induction descs as [|desc descs IH]; intros acc.
  - cbn. by rewrite app_nil_r.
  - cbn [foldl]. rewrite IH, filter_cons.
    destruct (HasSourceObject k desc _ _);
      destruct (ShouldPropagate k inst _);
      destruct (decide _) as [[? ?]|Hno]; try done;
      try (exfalso; apply Hno; done).
    by rewrite <- app_assoc.
Qed.

(** X30: [hasConflict] lists the descendants of the object's namespace that
    hold a source object of the same kind and name, in the order of the
    forest, and only when the object is namespaced and is to be
    propagated from its namespace; it answers yes exactly when the list
    is not empty. *)
Theorem hasConflict_lists_descendants (inst : Unstructured) :
  (forall desc,
     desc ∈ (hasConflict k inst).2 <->
     objNamespace inst <> ""%string /\
     desc ∈ DescendantNames k (objNamespace inst) /\
     HasSourceObject k desc (GroupVersionKindOf k inst) (objName inst) = true /\
     ShouldPropagate k inst (GetLabels k (objNamespace inst)) = true) /\
  ((hasConflict k inst).1 = true <-> (hasConflict k inst).2 <> []).
Proof.
  unfold hasConflict.
  destruct (String.eqb_spec (objNamespace inst) "") as [Hns|Hns]; cbn [fst snd].
  { split; [|done]. intros desc. rewrite elem_of_nil. split; [done|tauto]. }
  rewrite conflicts_are_filtered, app_nil_l. split.
  - intros desc. rewrite list_elem_of_filter. tauto.
  - destruct (filter _ _); cbn; split; done.
Qed.

End Checks.

Example two_selectors_kept :
  validateSelectorUniqueness hnc twoSelectors twoSelectors = ""%string /\
  validateSelectorUniqueness hnc twoSelectors emptyObject
  = ("cannot have more than one selector at the same time, but got multiple: "
     ++ "propagate.hnc.x-k8s.io/select, propagate.hnc.x-k8s.io/none")%string.
Proof. split; vm_compute; reflexivity. Qed.

Example conflict_in_child :
  hasConflict hnc twoSelectors = (true, ["child"%string]).
Proof. vm_compute. reflexivity. Qed.

Example unknown_exception_refused :
  checkAnnotation hnc "propagate.hnc.x-k8s.io/selct"
  = Some (invalidAnnotation hnc "propagate.hnc.x-k8s.io/selct") /\
  checkAnnotation hnc "example.com/select" = None.
Proof. split; vm_compute; reflexivity. Qed.

Lemma unchanged_selectors_pass_witness :
  validateSelectorChange hnc twoSelectors twoSelectors = None /\
  validateTreeSelectorChange hnc twoSelectors twoSelectors = None /\
  validateNoneSelectorChange hnc twoSelectors twoSelectors = None /\
  validateSelectorUniqueness hnc twoSelectors twoSelectors = ""%string.
Proof.
  apply (unchanged_selectors_pass hnc twoSelectors twoSelectors).
  repeat split.
Defined.

End SourceChecksFacts.
